(** * Schedule planner: a shallow embedding of [planner.py]

    The Python class [Planner] keeps a catalogue of classes in five redundant
    structures (three parallel lists and two dicts) and builds a four-year
    schedule by a greedy pass over the catalogue.  This file embeds the class
    in Rocq and settles the properties stated about it.

    Modelling choices:
    - Python [int] is [Z]; the [Credits] column is taken to hold integers.
    - A Python [dict] is an association list in insertion order ([Dict]);
      assignment to a present key keeps its position, assignment to a new key
      appends, [pop] of a missing key raises [KeyError].
    - Exceptions are values of [Exn]; a method is a computation in the monad
      [Py S], which threads a state [S] and stops at the first exception,
      keeping the state reached so far (Python mutates in place).
    - [print] appends an event to the [stdout] component of the state.
    - The [pandas] frame [self.df] is written but never read by the methods
      modelled here; it is not represented. *)

From Stdlib Require Import List ZArith String Ascii Bool Lia.
Import ListNotations.
Open Scope string_scope.
Open Scope list_scope.
Open Scope Z_scope.

(** ** Exceptions and results *)

Inductive PyKey : Type :=
| KStr (s : string)
| KInt (z : Z).

Inductive Exn : Type :=
| KeyError (key : PyKey)
| ValueError (msg : string)
| IndexError (msg : string).

Inductive Result (A : Type) : Type :=
| Ok (a : A)
| Raise (e : Exn).

Arguments Ok {A} a.
Arguments Raise {A} e.

(** ** Python dicts as insertion-ordered association lists *)

Class Key (K : Type) : Type := {
  key_eqb : K -> K -> bool;
  key_eqb_eq : forall a b, key_eqb a b = true <-> a = b;
  key_repr : K -> PyKey
}.

#[export] Instance string_Key : Key string := {|
  key_eqb := String.eqb;
  key_eqb_eq := String.eqb_eq;
  key_repr := KStr
|}.

#[export] Instance Z_Key : Key Z := {|
  key_eqb := Z.eqb;
  key_eqb_eq := Z.eqb_eq;
  key_repr := KInt
|}.

Definition Dict (K V : Type) : Type := list (K * V).

Section DictOps.
Context {K : Type} {HK : Key K} {V : Type}.

(** [d[k]], [None] standing for [KeyError]. *)
Fixpoint dict_get (d : Dict K V) (k : K) : option V :=
  match d with
  | [] => None
  | (k', v) :: d' => if key_eqb k k' then Some v else dict_get d' k
  end.

(** [d[k] = v]. *)
Fixpoint dict_set (d : Dict K V) (k : K) (v : V) : Dict K V :=
  match d with
  | [] => [(k, v)]
  | (k', v') :: d' =>
      if key_eqb k k' then (k', v) :: d' else (k', v') :: dict_set d' k v
  end.

(** [d.pop(k)]: the value removed and the remaining dict, [None] standing
    for [KeyError]. *)
Fixpoint dict_pop (d : Dict K V) (k : K) : option (V * Dict K V) :=
  match d with
  | [] => None
  | (k', v) :: d' =>
      if key_eqb k k' then Some (v, d')
      else match dict_pop d' k with
           | Some (w, d'') => Some (w, (k', v) :: d'')
           | None => None
           end
  end.

Definition dict_keys (d : Dict K V) : list K := map fst d.
Definition dict_values (d : Dict K V) : list V := map snd d.

(** [dict(zip(ks, vs))]. *)
Definition dict_zip (ks : list K) (vs : list V) : Dict K V :=
  fold_left (fun d kv => dict_set d (fst kv) (snd kv)) (combine ks vs) [].

(** Every Python dict has pairwise distinct keys. *)
Definition dict_wf (d : Dict K V) : Prop := NoDup (dict_keys d).
End DictOps.

(** ** Python list operations used by the class *)

(** [x in l] for a list of strings. *)
Definition list_mem (x : string) (l : list string) : bool :=
  existsb (String.eqb x) l.

(** [l.index(x)]: position of the first occurrence. *)
Fixpoint list_index (x : string) (l : list string) : option nat :=
  match l with
  | [] => None
  | y :: l' => if String.eqb x y then Some O
               else option_map S (list_index x l')
  end.

(** [l.pop(i)] for [i >= 0]: the list without position [i], [None] standing
    for [IndexError]. *)
Fixpoint list_pop {A : Type} (l : list A) (i : nat) : option (list A) :=
  match l, i with
  | [], _ => None
  | _ :: l', O => Some l'
  | x :: l', S j => option_map (cons x) (list_pop l' j)
  end.

(** The builtin [sum], which starts from 0 and adds from the left. *)
Definition sum (l : list Z) : Z := fold_left Z.add l 0.

(** [s.split(', ')]; [acc] is the piece being read. *)
Fixpoint split_acc (s acc : string) : list string :=
  match s with
  | EmptyString => [acc]
  | String c rest =>
      match rest with
      | String c' rest' =>
          if (Ascii.eqb c "," && Ascii.eqb c' " ")%bool
          then acc :: split_acc rest' EmptyString
          else split_acc rest (acc ++ String c EmptyString)%string
      | EmptyString => [(acc ++ String c EmptyString)%string]
      end
  end.

Definition split_comma_space (s : string) : list string :=
  split_acc s EmptyString.

(** ** The monad of Python methods *)

Definition Py (S A : Type) : Type := S -> Result A * S.

Definition ret {S A : Type} (a : A) : Py S A := fun s => (Ok a, s).

Definition bind {S A B : Type} (m : Py S A) (k : A -> Py S B) : Py S B :=
  fun s => match m s with
           | (Ok a, s') => k a s'
           | (Raise e, s') => (Raise e, s')
           end.

Definition raise {S A : Type} (e : Exn) : Py S A := fun s => (Raise e, s).
Definition gets {S A : Type} (proj : S -> A) : Py S A := fun s => (Ok (proj s), s).
Definition modify {S : Type} (f : S -> S) : Py S unit := fun s => (Ok tt, f s).

Notation "x <- m ;; k" := (bind m (fun x => k))
  (at level 61, m at next level, right associativity).
Notation "m ;; k" := (bind m (fun _ => k))
  (at level 61, right associativity).

(** [if c: raise e]. *)
Definition raise_if {S : Type} (c : bool) (e : Exn) : Py S unit :=
  if c then raise e else ret tt.

(** [d[k]] as a computation. *)
Definition subscript {S K V : Type} {HK : Key K} (d : Dict K V) (k : K) : Py S V :=
  match dict_get d k with
  | Some v => ret v
  | None => raise (KeyError (key_repr k))
  end.

(** [for x in l: body x]; the list is not mutated by any loop of the class. *)
Fixpoint for_ {S A : Type} (l : list A) (body : A -> Py S unit) : Py S unit :=
  match l with
  | [] => ret tt
  | x :: l' => body x ;; for_ l' body
  end.

(** ** The class [Planner] *)

Definition QUOTA : Z := 180.
Definition MAX_CREDS : Z := 18.

Record Planner : Type := {
  filename : string;
  start_year : Z;
  classes : list string;
  terms : list (list string);
  credits : list Z;
  class_terms : Dict string (list string);
  class_credits : Dict string Z
}.

(** The frame read by [__init__]: column names and rows, the [Term] cell
    still unsplit. *)
Record DataFrame : Type := {
  columns : list string;
  rows : list (string * string * Z)
}.

(** Lines 36-40 of [__init__]. *)
Definition planner_of_rows (fname : string) (year : Z)
    (rs : list (string * string * Z)) : Planner :=
  let cs := map (fun r => fst (fst r)) rs in
  let ts := map (fun r => split_comma_space (snd (fst r))) rs in
  let crs := map snd rs in
  {| filename := fname; start_year := year;
     classes := cs; terms := ts; credits := crs;
     class_terms := dict_zip cs ts;
     class_credits := dict_zip cs crs |}.

Definition init (fname : string) (year : Z) (df : DataFrame) : Result Planner :=
  if list_eq_dec string_dec (columns df) ["Class"; "Term"; "Credits"]
  then Ok (planner_of_rows fname year (rows df))
  else Raise (ValueError "CSV file must have columns: Class, Term, Credits").

Definition set_classes (v : list string) (p : Planner) : Planner :=
  {| filename := filename p; start_year := start_year p;
     classes := v; terms := terms p; credits := credits p;
     class_terms := class_terms p; class_credits := class_credits p |}.
Definition set_terms (v : list (list string)) (p : Planner) : Planner :=
  {| filename := filename p; start_year := start_year p;
     classes := classes p; terms := v; credits := credits p;
     class_terms := class_terms p; class_credits := class_credits p |}.
Definition set_credits (v : list Z) (p : Planner) : Planner :=
  {| filename := filename p; start_year := start_year p;
     classes := classes p; terms := terms p; credits := v;
     class_terms := class_terms p; class_credits := class_credits p |}.
Definition set_class_terms (v : Dict string (list string)) (p : Planner) : Planner :=
  {| filename := filename p; start_year := start_year p;
     classes := classes p; terms := terms p; credits := credits p;
     class_terms := v; class_credits := class_credits p |}.
Definition set_class_credits (v : Dict string Z) (p : Planner) : Planner :=
  {| filename := filename p; start_year := start_year p;
     classes := classes p; terms := terms p; credits := credits p;
     class_terms := class_terms p; class_credits := v |}.

Definition VALID_TERMS : list string := ["F"; "W"; "S"].

Definition MSG_DUPLICATE : string := "Class already exists in the planner".
Definition MSG_TERM : string := "Term must be F, W, or S".
Definition MSG_CREDITS : string := "Credits must be a positive integer".
Definition MSG_MISSING : string := "Class does not exist in the planner".

(** [add_class], lines 42-56. *)
Definition add_class (class_name : string) (terms_ : list string) (credits_ : Z)
  : Py Planner unit :=
  cs <- gets classes ;;
  raise_if (list_mem class_name cs) (ValueError MSG_DUPLICATE) ;;
  for_ terms_ (fun term =>
    raise_if (negb (list_mem term VALID_TERMS)) (ValueError MSG_TERM)) ;;
  raise_if (credits_ <=? 0) (ValueError MSG_CREDITS) ;;
  modify (fun self => set_classes (classes self ++ [class_name]) self) ;;
  modify (fun self => set_terms (terms self ++ [terms_]) self) ;;
  modify (fun self => set_credits (credits self ++ [credits_]) self) ;;
  modify (fun self => set_class_terms (dict_set (class_terms self) class_name terms_) self) ;;
  modify (fun self => set_class_credits (dict_set (class_credits self) class_name credits_) self).

(** [l.pop(index)] on one of the three lists. *)
Definition pop_at {A : Type} (proj : Planner -> list A)
    (upd : list A -> Planner -> Planner) (index : nat) : Py Planner unit :=
  l <- gets proj ;;
  match list_pop l index with
  | Some l' => modify (upd l')
  | None => raise (IndexError "pop index out of range")
  end.

(** [d.pop(class_name)] on one of the two dicts. *)
Definition pop_key {V : Type} (proj : Planner -> Dict string V)
    (upd : Dict string V -> Planner -> Planner) (class_name : string)
  : Py Planner unit :=
  d <- gets proj ;;
  match dict_pop d class_name with
  | Some (_, d') => modify (upd d')
  | None => raise (KeyError (KStr class_name))
  end.

(** [remove_class], lines 58-68.  After the membership test [index] cannot
    fail; its branch is kept so that the embedding is total. *)
Definition remove_class (class_name : string) : Py Planner unit :=
  cs <- gets classes ;;
  raise_if (negb (list_mem class_name cs)) (ValueError MSG_MISSING) ;;
  match list_index class_name cs with
  | None => raise (ValueError "x not in list")
  | Some index =>
      pop_at classes set_classes index ;;
      pop_at terms set_terms index ;;
      pop_at credits set_credits index ;;
      pop_key class_terms set_class_terms class_name ;;
      pop_key class_credits set_class_credits class_name
  end.

(** [get_class_terms] and [get_class_credits], lines 70-76. *)
Definition get_class_terms (self : Planner) (class_name : string)
  : Result (list string) :=
  match dict_get (class_terms self) class_name with
  | Some ts => Ok ts
  | None => Raise (KeyError (KStr class_name))
  end.

Definition get_class_credits (self : Planner) (class_name : string) : Result Z :=
  match dict_get (class_credits self) class_name with
  | Some c => Ok c
  | None => Raise (KeyError (KStr class_name))
  end.

(** [get_total_credits], lines 105-107. *)
Definition get_total_credits (self : Planner) : Z := sum (credits self).

(** ** [create_schedule] *)

Definition Slot : Type := Dict string Z.
Definition YearSchedule : Type := Dict string Slot.
Definition Schedule : Type := Dict Z YearSchedule.

(** What the method prints, one event per [print]. *)
Inductive Output : Type :=
| Banner
| QuotaWarning (total : Z)
| AddedLine (c : string) (added : list string)
| UnplacedWarning (remaining : list string).

(** The local variables of [create_schedule], and the standard output. *)
Record Frame : Type := {
  schedule : Schedule;
  total_credits : Z;
  class_terms_copy : Dict string (list string);
  classes_added : list string;
  stdout : list Output
}.

Definition set_schedule (v : Schedule) (f : Frame) : Frame :=
  {| schedule := v; total_credits := total_credits f;
     class_terms_copy := class_terms_copy f;
     classes_added := classes_added f; stdout := stdout f |}.
Definition set_total_credits (v : Z) (f : Frame) : Frame :=
  {| schedule := schedule f; total_credits := v;
     class_terms_copy := class_terms_copy f;
     classes_added := classes_added f; stdout := stdout f |}.
Definition set_class_terms_copy (v : Dict string (list string)) (f : Frame) : Frame :=
  {| schedule := schedule f; total_credits := total_credits f;
     class_terms_copy := v;
     classes_added := classes_added f; stdout := stdout f |}.
Definition set_classes_added (v : list string) (f : Frame) : Frame :=
  {| schedule := schedule f; total_credits := total_credits f;
     class_terms_copy := class_terms_copy f;
     classes_added := v; stdout := stdout f |}.

Definition print (o : Output) : Py Frame unit :=
  modify (fun f =>
    {| schedule := schedule f; total_credits := total_credits f;
       class_terms_copy := class_terms_copy f;
       classes_added := classes_added f; stdout := stdout f ++ [o] |}).

(** A method that only reads [self], run inside [create_schedule]. *)
Definition call {A : Type} (r : Result A) : Py Frame A :=
  match r with
  | Ok a => ret a
  | Raise e => raise e
  end.

Definition empty_year : YearSchedule := [("F", []); ("W", []); ("S", [])].

(** Lines 93-96: the body of [for term in terms].  The three calls of
    [get_class_credits] read the same entry of a dict that the method never
    writes; the embedding makes the call once, where the source makes the
    first one. *)
Definition place (self : Planner) (year : Z) (class_name term : string)
  : Py Frame unit :=
  sched <- gets schedule ;;
  ysched <- subscript sched year ;;
  slot <- subscript ysched term ;;
  cr <- call (get_class_credits self class_name) ;;
  if sum (dict_values slot) + cr <=? MAX_CREDS then
    modify (fun f => set_schedule
      (dict_set (schedule f) year
         (dict_set ysched term (dict_set slot class_name cr))) f) ;;
    modify (fun f => set_total_credits (total_credits f + cr) f) ;;
    modify (fun f => set_classes_added (classes_added f ++ [class_name]) f)
  else ret tt.

(** Lines 97-99: the body of [for c in classes_added]. *)
Definition forget (added : list string) (c : string) : Py Frame unit :=
  print (AddedLine c added) ;;
  copy <- gets class_terms_copy ;;
  match dict_pop copy c with
  | Some (_, copy') => modify (set_class_terms_copy copy')
  | None => raise (KeyError (KStr c))
  end.

(** Lines 89-99: the body of [for year in years]. *)
Definition year_pass (self : Planner) (year : Z) : Py Frame unit :=
  modify (fun f => set_schedule (dict_set (schedule f) year empty_year) f) ;;
  modify (set_classes_added []) ;;
  items <- gets class_terms_copy ;;
  for_ items (fun item =>
    for_ (snd item) (fun term => place self year (fst item) term)) ;;
  added <- gets classes_added ;;
  for_ added (forget added).

Definition quota_check (self : Planner) : Py Frame unit :=
  if get_total_credits self <? QUOTA then
    print Banner ;;
    print (QuotaWarning (get_total_credits self)) ;;
    print Banner
  else ret tt.

Definition years_of (self : Planner) : list Z :=
  [start_year self; start_year self + 1; start_year self + 2; start_year self + 3].

(** [create_schedule], lines 78-103. *)
Definition create_schedule (self : Planner) : Py Frame Schedule :=
  quota_check self ;;
  modify (set_schedule []) ;;
  modify (set_total_credits 0) ;;
  modify (set_class_terms_copy (class_terms self)) ;;
  for_ (years_of self) (year_pass self) ;;
  copy <- gets class_terms_copy ;;
  (if (0 <? Z.of_nat (List.length copy))
   then print (UnplacedWarning (dict_keys copy)) else ret tt) ;;
  gets schedule.

(** A fresh call: no local is bound and nothing has been printed. *)
Definition fresh : Frame :=
  {| schedule := []; total_credits := 0; class_terms_copy := [];
     classes_added := []; stdout := [] |}.

(** What a caller of [create_schedule] observes: the value returned or the
    exception raised, and what was printed. *)
Definition run_create_schedule (self : Planner) : Result Schedule * list Output :=
  let (r, f) := create_schedule self fresh in (r, stdout f).

(** ** [display_schedule] *)

(** What [display_schedule] prints, one event per [print]: the line
    [Year <year>], the line [<term>: <classes>], and the empty line. *)
Inductive Line : Type :=
| YearLine (year : Z)
| TermLine (term : string) (classes : Slot)
| BlankLine.

(** [display_schedule], lines 109-115; the state is the standard output. *)
Definition display_schedule (schedule_ : Schedule) : Py (list Line) unit :=
  for_ schedule_ (fun item =>
    modify (fun out => out ++ [YearLine (fst item)]) ;;
    for_ (snd item) (fun entry =>
      modify (fun out => out ++ [TermLine (fst entry) (snd entry)])) ;;
    modify (fun out => out ++ [BlankLine])).

(** ** The scenarios of the specification *)

(** One class [X], offered in every term, 6 credits, first year 22. *)
Definition planner_X : Planner :=
  planner_of_rows "classes.csv" 22 [("X", "F, W, S", 6)].

(** [A] (fall, 18 credits) then [B] (fall, 4 credits), first year 22. *)
Definition planner_AB : Planner :=
  planner_of_rows "classes.csv" 22 [("A", "F", 18); ("B", "F", 4)].

(** What [create_schedule] returns for [planner_AB] and for [planner_ABC]. *)
Definition schedule_AB : Schedule :=
  [(22, [("F", [("A", 18)]); ("W", []); ("S", [])]);
   (23, [("F", [("B", 4)]); ("W", []); ("S", [])]);
   (24, [("F", []); ("W", []); ("S", [])]);
   (25, [("F", []); ("W", []); ("S", [])])].

(** What the call prints for [planner_AB]. *)
Definition output_AB : list Output :=
  [Banner; QuotaWarning 22; Banner; AddedLine "A" ["A"]; AddedLine "B" ["B"]].

(** A class too large for any slot, after the two classes of [planner_AB]. *)
Definition planner_ABC : Planner :=
  planner_of_rows "classes.csv" 22
    [("A", "F", 18); ("B", "F", 4); ("C", "W, S", 20)].

(** One class offered in fall and winter, 4 credits. *)
Definition planner_two_terms : Planner :=
  planner_of_rows "classes.csv" 22 [("MATH 101", "F, W", 4)].

(** A file with the same row twice. *)
Definition planner_twice : Planner :=
  planner_of_rows "classes.csv" 22 [("A", "F", 3); ("A", "F", 3)].

(** * Vocabulary of the statements and of their proofs *)

(** ** Reading a returned schedule and what was printed *)

(** [schedule[year][term]]. *)
Definition slot_of (s : Schedule) (year : Z) (term : string) : option Slot :=
  match dict_get s year with
  | Some ys => dict_get ys term
  | None => None
  end.

(** The class [c] is in the slot [(year, term)] of [s]. *)
Definition placed_at (s : Schedule) (year : Z) (term c : string) : Prop :=
  exists slot v, slot_of s year term = Some slot /\ dict_get slot c = Some v.

(** The class [c] is somewhere in [s]. *)
Definition placed (s : Schedule) (c : string) : Prop :=
  exists year term, placed_at s year term c.

(** [c] is in the slot [t] of the year [ys]. *)
Definition in_year (ys : YearSchedule) (t c : string) : Prop :=
  exists slot v, dict_get ys t = Some slot /\ dict_get slot c = Some v.

(** The schedule of four years with nothing in any slot. *)
Definition empty_schedule (year : Z) : Schedule :=
  [(year, empty_year); (year + 1, empty_year);
   (year + 2, empty_year); (year + 3, empty_year)].

(** The events of the quota warning and of the last warning. *)
Definition is_quota_warning (o : Output) : bool :=
  match o with QuotaWarning _ => true | _ => false end.

Definition is_unplaced_warning (o : Output) : bool :=
  match o with UnplacedWarning _ => true | _ => false end.

(** Whether a quota warning was printed. *)
Definition quota_warned (out : list Output) : bool :=
  existsb is_quota_warning out.

(** The quota is reported as met when no quota warning was printed. *)
Definition quotaMet (out : list Output) : bool :=
  negb (existsb is_quota_warning out).

(** The classes reported as remaining, none when no such warning was
    printed. *)
Fixpoint unplaced (out : list Output) : list string :=
  match out with
  | [] => []
  | UnplacedWarning ks :: _ => ks
  | _ :: out' => unplaced out'
  end.

(** ** States of the catalogue *)

(** The consistency of the five structures of a planner. *)
Definition consistent (p : Planner) : Prop :=
  List.length (terms p) = List.length (classes p) /\
  List.length (credits p) = List.length (classes p) /\
  (forall c, In c (dict_keys (class_terms p)) <-> In c (classes p)) /\
  (forall c, In c (dict_keys (class_credits p)) <-> In c (classes p)) /\
  (forall i c, nth_error (classes p) i = Some c ->
     dict_get (class_terms p) c = nth_error (terms p) i /\
     dict_get (class_credits p) c = nth_error (credits p) i).

(** A planner as the class keeps it: consistent, without a repeated name,
    and with dicts that are dicts. *)
Definition well_kept (p : Planner) : Prop :=
  consistent p /\ NoDup (classes p) /\
  dict_wf (class_terms p) /\ dict_wf (class_credits p).

(** The state after a successful [add_class]. *)
Definition added_class (p : Planner) (class_name : string)
    (terms_ : list string) (credits_ : Z) : Planner :=
  {| filename := filename p; start_year := start_year p;
     classes := classes p ++ [class_name];
     terms := terms p ++ [terms_];
     credits := credits p ++ [credits_];
     class_terms := dict_set (class_terms p) class_name terms_;
     class_credits := dict_set (class_credits p) class_name credits_ |}.

(** The state after a successful [remove_class]. *)
Definition removed_class (p : Planner) (cs : list string)
    (ts : list (list string)) (crs : list Z)
    (ct : Dict string (list string)) (cc : Dict string Z) : Planner :=
  {| filename := filename p; start_year := start_year p;
     classes := cs; terms := ts; credits := crs;
     class_terms := ct; class_credits := cc |}.

(** The planners obtained from [p0] by calls of [add_class] and
    [remove_class], whatever their outcome. *)
Inductive reached (p0 : Planner) : Planner -> Prop :=
| reached_start : reached p0 p0
| reached_add p class_name terms_ credits_ r p' :
    reached p0 p ->
    add_class class_name terms_ credits_ p = (r, p') ->
    reached p0 p'
| reached_remove p class_name r p' :
    reached p0 p ->
    remove_class class_name p = (r, p') ->
    reached p0 p'.

(** Position [j] after the pop is position [j] or [j + 1] before it. *)
Definition before_pop (i j : nat) : nat := if (j <? i)%nat then j else S j.

(** ** Outcomes of computations *)

(** [post m s Q E]: from [s], [m] returns a value and a state satisfying [Q],
    or raises in a state satisfying [E]. *)
Definition post {S A : Type} (m : Py S A) (s : S)
    (Q : A -> S -> Prop) (E : Exn -> S -> Prop) : Prop :=
  match m s with
  | (Ok a, s') => Q a s'
  | (Raise e, s') => E e s'
  end.

(** Two frames with the same local variables. *)
Definition same_locals (f g : Frame) : Prop :=
  schedule f = schedule g /\ total_credits f = total_credits g /\
  class_terms_copy f = class_terms_copy g /\
  classes_added f = classes_added g.

(** A computation whose result and local variables do not depend on what
    was printed before. *)
Definition blind {A : Type} (m : Py Frame A) : Prop :=
  forall f g, same_locals f g ->
    fst (m f) = fst (m g) /\ same_locals (snd (m f)) (snd (m g)).

(** ** The frames of [create_schedule] *)

(** Lines 84-103: [create_schedule] after the quota check. *)
Definition build (self : Planner) : Py Frame Schedule :=
  modify (set_schedule []) ;;
  modify (set_total_credits 0) ;;
  modify (set_class_terms_copy (class_terms self)) ;;
  for_ (years_of self) (year_pass self) ;;
  copy <- gets class_terms_copy ;;
  (if (0 <? Z.of_nat (List.length copy))
   then print (UnplacedWarning (dict_keys copy)) else ret tt) ;;
  gets schedule.

(** The frame in which the loop over the years starts. *)
Definition start_frame (self : Planner) (f : Frame) : Frame :=
  {| schedule := []; total_credits := 0;
     class_terms_copy := class_terms self;
     classes_added := classes_added f;
     stdout := stdout f ++
       if get_total_credits self <? QUOTA
       then [Banner; QuotaWarning (get_total_credits self); Banner]
       else [] |}.

(** The last warning of [create_schedule]. *)
Definition remaining_warning (copy : Dict string (list string)) : list Output :=
  if 0 <? Z.of_nat (List.length copy)
  then [UnplacedWarning (dict_keys copy)] else [].

(** The dict left by popping the keys [l] in order, [None] when some pop
    raises. *)
Fixpoint pop_all {V : Type} (d : Dict string V) (l : list string)
  : option (Dict string V) :=
  match l with
  | [] => Some d
  | c :: l' =>
      match dict_pop d c with
      | Some (_, d') => pop_all d' l'
      | None => None
      end
  end.

(** [c] occurs at two positions of [l]. *)
Definition twice (c : string) (l : list string) : Prop :=
  exists l1 l2 l3, l = l1 ++ c :: l2 ++ c :: l3.

(** What holds of the year being filled: [ys] is [schedule[year]], [copy]
    the working copy the pass iterates over, [added] is [classes_added]. *)
Record year_ok (self : Planner) (copy : Dict string (list string))
    (added : list string) (ys : YearSchedule) : Prop := {
  yo_keys : dict_keys ys = ["F"; "W"; "S"];
  yo_sum : forall t slot, dict_get ys t = Some slot ->
    sum (dict_values slot) <= MAX_CREDS;
  yo_val : forall t slot k v,
    dict_get ys t = Some slot -> dict_get slot k = Some v ->
    dict_get (class_credits self) k = Some v /\ In k added /\
    exists ts, In (k, ts) copy /\ In t ts;
  yo_added : forall c, In c added ->
    exists t slot v, dict_get ys t = Some slot /\ dict_get slot c = Some v;
  yo_twice : forall c t1 t2 s1 s2 v1 v2,
    dict_get ys t1 = Some s1 -> dict_get s1 c = Some v1 ->
    dict_get ys t2 = Some s2 -> dict_get s2 c = Some v2 ->
    t1 <> t2 -> twice c added
}.

(** The frames met while the two nested loops of a year run. *)
Definition placing (self : Planner) (year : Z) (sched0 : Schedule)
    (copy : Dict string (list string)) (out : list Output) (f : Frame) : Prop :=
  class_terms_copy f = copy /\ stdout f = out /\
  exists ys, schedule f = dict_set sched0 year ys /\
             year_ok self copy (classes_added f) ys.

(** How the frame after a completed year pass relates to the frame before. *)
Definition year_step (self : Planner) (year : Z) (f f' : Frame) : Prop :=
  exists ys added,
    schedule f' = dict_set (schedule f) year ys /\
    year_ok self (class_terms_copy f) added ys /\
    classes_added f' = added /\
    pop_all (class_terms_copy f) added = Some (class_terms_copy f') /\
    stdout f' = stdout f ++ map (fun c => AddedLine c added) added.

(** The frames between the year passes of a call that completes them. *)
Inductive year_steps (self : Planner) : list Z -> Frame -> Frame -> Prop :=
| steps_nil f : year_steps self [] f f
| steps_cons year l f f' f'' :
    year_step self year f f' ->
    year_steps self l f' f'' ->
    year_steps self (year :: l) f f''.

(** What holds between two year passes, [done] being the years filled. *)
Record sched_inv (self : Planner) (done : list Z) (f : Frame) : Prop := {
  si_keys : dict_keys (schedule f) = done;
  si_incl : incl (class_terms_copy f) (class_terms self);
  si_years : forall y ys, dict_get (schedule f) y = Some ys ->
    exists cp added, incl cp (class_terms self) /\ year_ok self cp added ys
}.

(** The same for a planner whose [class_terms] has distinct keys: the
    working copy and the schedule share the names of the catalogue between
    them, and no name is in two slots. *)
Record part_inv (self : Planner) (f : Frame) : Prop := {
  pi_wf : dict_wf (class_terms_copy f);
  pi_cover : forall c,
    In c (dict_keys (class_terms self)) <->
    In c (dict_keys (class_terms_copy f)) \/ placed (schedule f) c;
  pi_disj : forall c,
    placed (schedule f) c -> ~ In c (dict_keys (class_terms_copy f));
  pi_once : forall c y1 t1 y2 t2,
    placed_at (schedule f) y1 t1 c -> placed_at (schedule f) y2 t2 c ->
    y1 = y2 /\ t1 = t2
}.

(** ** Further vocabulary *)

(** [', '.join(l)]. *)
Fixpoint join_comma_space (l : list string) : string :=
  match l with
  | [] => EmptyString
  | x :: l' =>
      match l' with
      | [] => x
      | _ :: _ => (x ++ ", " ++ join_comma_space l')%string
      end
  end.

(** The last row of the file whose [Class] cell is [c]. *)
Definition last_row (c : string) (rs : list (string * string * Z))
  : option (string * string * Z) :=
  find (fun r => String.eqb c (fst (fst r))) (rev rs).

(** Every stored term is one of F, W, S and every stored credit is positive:
    what [add_class] checks before it stores. *)
Definition valid_attributes (p : Planner) : Prop :=
  (forall c ts, In (c, ts) (class_terms p) ->
     forall t, In t ts -> In t VALID_TERMS) /\
  (forall c v, In (c, v) (class_credits p) -> 0 < v).

(** [schedule[year][term]], the empty dict when there is no such slot. *)
Definition slot_or_empty (s : Schedule) (year : Z) (term : string) : Slot :=
  match slot_of s year term with
  | Some slot => slot
  | None => []
  end.

(** The five lines of one year. *)
Definition year_lines (s : Schedule) (year : Z) : list Line :=
  [YearLine year;
   TermLine "F" (slot_or_empty s year "F");
   TermLine "W" (slot_or_empty s year "W");
   TermLine "S" (slot_or_empty s year "S");
   BlankLine].

(** An exception that is a [KeyError]. *)
Definition key_error (e : Exn) (f : Frame) : Prop := exists k, e = KeyError k.

(** A file whose [Term] cell has no blank after the comma. *)
Definition planner_bad_term : Planner :=
  planner_of_rows "classes.csv" 22 [("A", "F", 4); ("B", "F,W", 4)].

(** A class has at most one term, a valid one, and its credits are known. *)
Definition single_term (self : Planner) (c : string) (ts : list string) : Prop :=
  (List.length ts <= 1)%nat /\
  (forall t, In t ts -> In t VALID_TERMS) /\
  exists v, dict_get (class_credits self) c = Some v.

(** Every entry of every slot carries the credits of the catalogue. *)
Definition entries_from_catalogue (self : Planner) (s : Schedule) : Prop :=
  forall y ys t slot k v,
    dict_get s y = Some ys -> dict_get ys t = Some slot ->
    In (k, v) slot -> dict_get (class_credits self) k = Some v.

(** No slot of the year [ys] in a term of [ts] has room for the class [c]. *)
Definition no_room (self : Planner) (ys : YearSchedule) (c : string)
    (ts : list string) : Prop :=
  forall t slot cr,
    In t ts -> dict_get ys t = Some slot ->
    dict_get (class_credits self) c = Some cr ->
    MAX_CREDS < sum (dict_values slot) + cr.

(** [schedule[year]] in the frame [f], the empty dict before the year is
    opened. *)
Definition year_of (f : Frame) (year : Z) : YearSchedule :=
  match dict_get (schedule f) year with
  | Some ys => ys
  | None => []
  end.

(** Every slot of [ys'] is a slot of [ys] with at least its credits. *)
Definition grows (ys ys' : YearSchedule) : Prop :=
  forall t slot', dict_get ys' t = Some slot' ->
    exists slot, dict_get ys t = Some slot /\
                 sum (dict_values slot) <= sum (dict_values slot').

(** No class of the working copy has room in any year of the schedule. *)
Definition remaining_full (self : Planner) (s : Schedule)
    (copy : Dict string (list string)) : Prop :=
  forall c ts, In (c, ts) copy ->
    forall y ys, dict_get s y = Some ys -> no_room self ys c ts.

(** No placed class had room in a year before the one it is placed in. *)
Definition earlier_full (self : Planner) (s : Schedule) : Prop :=
  forall c y t, placed_at s y t c ->
    forall ts, In (c, ts) (class_terms self) ->
    forall y' ys', y' < y -> dict_get s y' = Some ys' ->
      no_room self ys' c ts.

(** What holds between two year passes when no credit is negative. *)
Record greedy_inv (self : Planner) (done : list Z) (f : Frame) : Prop := {
  gi_wf : dict_wf (class_terms_copy f);
  gi_incl : incl (class_terms_copy f) (class_terms self);
  gi_keys : dict_keys (schedule f) = done;
  gi_remaining : remaining_full self (schedule f) (class_terms_copy f);
  gi_earlier : earlier_full self (schedule f)
}.

(** What the call prints for [planner_ABC]. *)
Definition output_ABC : list Output :=
  [Banner; QuotaWarning 42; Banner; AddedLine "A" ["A"]; AddedLine "B" ["B"];
   UnplacedWarning ["C"]].



(** The planner [planner_AB] after [add_class('D', [], 3)]. *)
Definition planner_ABD : Planner := added_class planner_AB "D" [] 3.

(** * Basic lemmas *)

(** ** Dicts *)

Section DictFacts.
Context {K : Type} {HK : Key K} {V : Type}.
Implicit Types (d : Dict K V) (k : K) (v : V).

Lemma key_eqb_refl k : key_eqb k k = true.
Proof. now apply key_eqb_eq. Qed.

Lemma key_eqb_neq k k' : k <> k' -> key_eqb k k' = false.
Proof.
  intros Hne. destruct (key_eqb k k') eqn:E; [|reflexivity].
  apply key_eqb_eq in E. contradiction.
Qed.

Lemma key_eq_dec k k' : {k = k'} + {k <> k'}.
Proof.
  destruct (key_eqb k k') eqn:E.
  - left. now apply key_eqb_eq.
  - right. intros ->. rewrite key_eqb_refl in E. discriminate.
Qed.

Lemma dict_get_set_eq d k v : dict_get (dict_set d k v) k = Some v.
Proof.
  induction d as [|[k' v'] d IH]; simpl.
  - now rewrite key_eqb_refl.
  - destruct (key_eqb k k') eqn:E; simpl; rewrite E; auto.
Qed.

Lemma dict_get_set_neq d k k' v :
  k <> k' -> dict_get (dict_set d k v) k' = dict_get d k'.
Proof.
  intros Hne. induction d as [|[k0 v0] d IH]; simpl.
  - rewrite key_eqb_neq; auto.
  - destruct (key_eqb k k0) eqn:E; simpl.
    + apply key_eqb_eq in E. subst k0.
      rewrite (key_eqb_neq k' k); auto.
    + now rewrite IH.
Qed.

Lemma dict_set_set d k v w : dict_set (dict_set d k v) k w = dict_set d k w.
Proof.
  induction d as [|[k' v'] d IH]; simpl.
  - now rewrite key_eqb_refl.
  - destruct (key_eqb k k') eqn:E; simpl; rewrite E; congruence.
Qed.

Lemma dict_get_In d k v : dict_get d k = Some v -> In (k, v) d.
Proof.
  induction d as [|[k' v'] d IH]; simpl; [discriminate|].
  destruct (key_eqb k k') eqn:E.
  - apply key_eqb_eq in E. intros [= ->]. left. congruence.
  - auto.
Qed.

Lemma dict_get_key d k v : dict_get d k = Some v -> In k (dict_keys d).
Proof.
  intros H. apply dict_get_In in H.
  unfold dict_keys. apply in_map_iff. now exists (k, v).
Qed.

Lemma dict_get_None d k : dict_get d k = None <-> ~ In k (dict_keys d).
Proof.
  induction d as [|[k' v'] d IH]; simpl.
  - tauto.
  - destruct (key_eqb k k') eqn:E.
    + apply key_eqb_eq in E. split; [discriminate | intros H; exfalso; auto].
    + rewrite IH. split.
      * intros H [->|H']; [rewrite key_eqb_refl in E; discriminate | auto].
      * tauto.
Qed.

Lemma dict_key_get d k : In k (dict_keys d) -> exists v, dict_get d k = Some v.
Proof.
  intros H. destruct (dict_get d k) as [v|] eqn:E; [eauto|].
  apply dict_get_None in E. contradiction.
Qed.

Lemma In_dict_get d k v : dict_wf d -> In (k, v) d -> dict_get d k = Some v.
Proof.
  unfold dict_wf. induction d as [|[k' v'] d IH]; simpl; [tauto|].
  intros Hnd [H|H].
  - injection H as -> ->. now rewrite key_eqb_refl.
  - inversion Hnd as [|? ? Hni Hnd']; subst.
    destruct (key_eqb k k') eqn:E.
    + apply key_eqb_eq in E. subst k'. exfalso. apply Hni.
      unfold dict_keys. apply in_map_iff. now exists (k, v).
    + auto.
Qed.

Lemma dict_keys_set_present d k v v0 :
  dict_get d k = Some v0 -> dict_keys (dict_set d k v) = dict_keys d.
Proof.
  induction d as [|[k' v'] d IH]; simpl; [discriminate|].
  destruct (key_eqb k k') eqn:E; simpl; [reflexivity|].
  intros H. now rewrite IH.
Qed.

Lemma dict_keys_set_absent d k v :
  dict_get d k = None -> dict_keys (dict_set d k v) = dict_keys d ++ [k].
Proof.
  induction d as [|[k' v'] d IH]; simpl; [reflexivity|].
  destruct (key_eqb k k') eqn:E; simpl; [discriminate|].
  intros H. now rewrite IH.
Qed.

Lemma dict_pop_None d k : dict_pop d k = None <-> dict_get d k = None.
Proof.
  induction d as [|[k' v'] d IH]; simpl; [tauto|].
  destruct (key_eqb k k'); [split; discriminate|].
  destruct (dict_pop d k) as [[w d'']|].
  - split; [discriminate|]. intros H. apply IH in H. discriminate.
  - split; intros _; [now apply IH | reflexivity].
Qed.

Lemma dict_pop_get d k v d' : dict_pop d k = Some (v, d') -> dict_get d k = Some v.
Proof.
  revert d'. induction d as [|[k' v'] d IH]; simpl; [discriminate|].
  intros d'. destruct (key_eqb k k'); [congruence|].
  destruct (dict_pop d k) as [[w d'']|]; [|discriminate].
  intros [= -> <-]. eauto.
Qed.

Lemma dict_pop_get_neq d k v d' k' :
  dict_pop d k = Some (v, d') -> k' <> k -> dict_get d' k' = dict_get d k'.
Proof.
  revert d'. induction d as [|[k0 v0] d IH]; simpl; [discriminate|].
  intros d'. destruct (key_eqb k k0) eqn:E.
  - apply key_eqb_eq in E. subst k0. intros [= -> <-] Hne.
    now rewrite key_eqb_neq.
  - destruct (dict_pop d k) as [[w d'']|]; [|discriminate].
    intros [= -> <-] Hne. simpl. destruct (key_eqb k' k0); eauto.
Qed.

Lemma dict_pop_incl d k v d' : dict_pop d k = Some (v, d') -> incl d' d.
Proof.
  revert d'. induction d as [|[k0 v0] d IH]; simpl; [discriminate|].
  intros d'. destruct (key_eqb k k0).
  - intros [= -> <-]. apply incl_tl, incl_refl.
  - destruct (dict_pop d k) as [[w d'']|]; [|discriminate].
    intros [= -> <-]. apply incl_cons.
    + now left.
    + apply incl_tl. eauto.
Qed.

Lemma dict_pop_wf d k v d' :
  dict_pop d k = Some (v, d') -> dict_wf d ->
  dict_wf d' /\ dict_get d' k = None.
Proof.
  unfold dict_wf.
  revert d'. induction d as [|[k0 v0] d IH]; simpl; [discriminate|].
  intros d'. destruct (key_eqb k k0) eqn:E.
  - apply key_eqb_eq in E. subst k0. intros [= -> <-] Hnd.
    inversion Hnd; subst. split; [assumption|]. now apply dict_get_None.
  - destruct (dict_pop d k) as [[w d'']|] eqn:Ep; [|discriminate].
    intros [= -> <-] Hnd. inversion Hnd as [|? ? Hni Hnd']; subst.
    destruct (IH _ eq_refl Hnd') as [Hwf Hget]. simpl. rewrite E. split; auto.
    constructor; auto. intros Hin. apply Hni.
    apply dict_key_get in Hin. destruct Hin as [u Hu].
    destruct (key_eq_dec k0 k) as [->|Hne].
    + rewrite key_eqb_refl in E. discriminate.
    + erewrite dict_pop_get_neq in Hu by eauto. eapply dict_get_key; eauto.
Qed.

Lemma dict_set_wf d k v : dict_wf d -> dict_wf (dict_set d k v).
Proof.
  unfold dict_wf. intros Hwf.
  destruct (dict_get d k) as [v0|] eqn:E.
  - now rewrite (dict_keys_set_present _ _ v _ E).
  - rewrite (dict_keys_set_absent _ _ v E).
    apply NoDup_app; auto.
    + constructor; [tauto | constructor].
    + intros x Hx [<-|[]]. apply dict_get_None in E. contradiction.
Qed.

Lemma dict_zip_wf (ks : list K) (vs : list V) : dict_wf (dict_zip ks vs).
Proof.
  unfold dict_zip.
  assert (H : forall l d, dict_wf d ->
    dict_wf (fold_left (fun d kv => dict_set d (fst kv) (snd kv)) l d)).
  { induction l as [|kv l IH]; simpl; auto using dict_set_wf. }
  apply H. constructor.
Qed.
End DictFacts.

(** ** [sum] *)

Lemma sum_shift l a : fold_left Z.add l a = a + sum l.
Proof.
  unfold sum. revert a. induction l as [|x l IH]; intros a; simpl.
  - lia.
  - rewrite IH, (IH x). lia.
Qed.

Lemma sum_cons x l : sum (x :: l) = x + sum l.
Proof. unfold sum at 1. simpl. apply sum_shift. Qed.

Lemma sum_values_set {K : Type} {HK : Key K} (d : Dict K Z) k v :
  sum (dict_values (dict_set d k v)) =
  sum (dict_values d) + v - match dict_get d k with Some w => w | None => 0 end.
Proof.
  unfold dict_values.
  induction d as [|[k' v'] d IH]; simpl.
  - rewrite sum_cons. unfold sum. simpl. lia.
  - destruct (key_eqb k k') eqn:E; simpl; rewrite !sum_cons; [|rewrite IH]; lia.
Qed.

(** ** Running computations *)

Lemma post_bind {S A B : Type} (m : Py S A) (k : A -> Py S B) s Q E :
  post m s (fun a s' => post (k a) s' Q E) E -> post (bind m k) s Q E.
Proof.
  unfold post, bind. destruct (m s) as [[a|e] s']; auto.
Qed.

Lemma post_weaken {S A : Type} (m : Py S A) s (Q Q' : A -> S -> Prop)
    (E E' : Exn -> S -> Prop) :
  post m s Q E ->
  (forall a s', Q a s' -> Q' a s') ->
  (forall e s', E e s' -> E' e s') ->
  post m s Q' E'.
Proof.
  unfold post. destruct (m s) as [[a|e] s']; auto.
Qed.

(** The loop rule: the invariant [I] is indexed by the elements already
    visited. *)
Lemma post_for {S A : Type} (l : list A) (body : A -> Py S unit)
    (I : list A -> S -> Prop) (E : Exn -> S -> Prop) :
  (forall done x todo s, l = done ++ x :: todo -> I done s ->
     post (body x) s (fun _ s' => I (done ++ [x]) s') E) ->
  forall s, I [] s -> post (for_ l body) s (fun _ s' => I l s') E.
Proof.
  intros Hbody.
  assert (H : forall todo done s, l = done ++ todo -> I done s ->
            post (for_ todo body) s (fun _ s' => I l s') E).
  { induction todo as [|x todo IH]; intros done s Hl HI; simpl.
    - rewrite app_nil_r in Hl. subst l. exact HI.
    - apply post_bind.
      eapply post_weaken; [apply (Hbody done x todo s Hl HI)| |auto].
      intros a s' HI'. apply (IH (done ++ [x])); auto.
      rewrite <- app_assoc. exact Hl. }
  intros s HI. apply (H l [] s); auto.
Qed.

Arguments list_mem : simpl never.

Lemma list_mem_In x l : list_mem x l = true <-> In x l.
Proof.
  unfold list_mem. rewrite existsb_exists. split.
  - intros [y [Hy E]]. apply String.eqb_eq in E. now subst.
  - intros H. exists x. split; [assumption | apply String.eqb_refl].
Qed.

Lemma list_mem_not_In x l : list_mem x l = false <-> ~ In x l.
Proof.
  rewrite <- list_mem_In. destruct (list_mem x l); split; congruence.
Qed.

(** ** [add_class] *)

(** The loop over [terms] of [add_class] changes nothing; it raises exactly
    when some term is not one of F, W, S. *)
Lemma check_terms_ok (ts : list string) (p : Planner) :
  (forall t, In t ts -> In t VALID_TERMS) ->
  for_ ts (fun term =>
    raise_if (negb (list_mem term VALID_TERMS)) (ValueError MSG_TERM)) p
  = (Ok tt, p).
Proof.
  induction ts as [|t ts IH]; intros Hall; simpl; [reflexivity|].
  unfold bind. assert (Ht : list_mem t VALID_TERMS = true).
  { apply list_mem_In, Hall. now left. }
  rewrite Ht. simpl. apply IH. intros u Hu. apply Hall. now right.
Qed.

Lemma check_terms_bad (ts : list string) (p : Planner) :
  (exists t, In t ts /\ ~ In t VALID_TERMS) ->
  for_ ts (fun term =>
    raise_if (negb (list_mem term VALID_TERMS)) (ValueError MSG_TERM)) p
  = (Raise (ValueError MSG_TERM), p).
Proof.
  induction ts as [|t ts IH]; intros [u [Hu Hbad]]; simpl; [contradiction|].
  unfold bind. destruct (list_mem t VALID_TERMS) eqn:Ht; simpl.
  - apply IH. exists u. split; [|assumption].
    destruct Hu as [<-|Hu]; [|assumption].
    apply list_mem_In in Ht. contradiction.
  - reflexivity.
Qed.

Lemma valid_terms_dec (ts : list string) :
  (forall t, In t ts -> In t VALID_TERMS) \/
  (exists t, In t ts /\ ~ In t VALID_TERMS).
Proof.
  induction ts as [|t ts [IH|[u [Hu Hbad]]]].
  - left. intros t [].
  - destruct (list_mem t VALID_TERMS) eqn:Ht.
    + left. intros u [<-|Hu]; [now apply list_mem_In | auto].
    + right. exists t. split; [now left | now apply list_mem_not_In].
  - right. exists u. split; [now right | assumption].
Qed.

Lemma add_class_run (p : Planner) class_name terms_ credits_ :
  add_class class_name terms_ credits_ p =
  if list_mem class_name (classes p)
  then (Raise (ValueError MSG_DUPLICATE), p)
  else if forallb (fun t => list_mem t VALID_TERMS) terms_
  then if credits_ <=? 0
       then (Raise (ValueError MSG_CREDITS), p)
       else (Ok tt, added_class p class_name terms_ credits_)
  else (Raise (ValueError MSG_TERM), p).
Proof.
  unfold add_class, bind at 1, gets. unfold bind at 1.
  destruct (list_mem class_name (classes p)); simpl; [reflexivity|].
  unfold bind at 1.
  destruct (forallb (fun t => list_mem t VALID_TERMS) terms_) eqn:Hall.
  - rewrite check_terms_ok.
    + unfold bind at 1. destruct (credits_ <=? 0); reflexivity.
    + intros t Ht. rewrite forallb_forall in Hall. apply list_mem_In; auto.
  - rewrite check_terms_bad; [reflexivity|].
    destruct (valid_terms_dec terms_) as [Hok|Hbad]; [|assumption].
    assert (forallb (fun t => list_mem t VALID_TERMS) terms_ = true).
    { apply forallb_forall. intros t Ht. apply list_mem_In; auto. }
    congruence.
Qed.

(** The outcome of [add_class], check by check. *)
Lemma add_class_cases (p : Planner) (class_name : string)
    (terms_ : list string) (credits_ : Z) :
  (In class_name (classes p) ->
     add_class class_name terms_ credits_ p
     = (Raise (ValueError MSG_DUPLICATE), p)) /\
  (~ In class_name (classes p) ->
     (exists t, In t terms_ /\ ~ In t VALID_TERMS) ->
     add_class class_name terms_ credits_ p
     = (Raise (ValueError MSG_TERM), p)) /\
  (~ In class_name (classes p) ->
     (forall t, In t terms_ -> In t VALID_TERMS) ->
     credits_ <= 0 ->
     add_class class_name terms_ credits_ p
     = (Raise (ValueError MSG_CREDITS), p)) /\
  (forall e p', add_class class_name terms_ credits_ p = (Raise e, p') ->
     p' = p /\
     (In class_name (classes p) \/
      (exists t, In t terms_ /\ ~ In t VALID_TERMS) \/
      credits_ <= 0)) /\
  (~ In class_name (classes p) ->
     (forall t, In t terms_ -> In t VALID_TERMS) ->
     0 < credits_ ->
     exists p',
       add_class class_name terms_ credits_ p = (Ok tt, p') /\
       classes p' = classes p ++ [class_name] /\
       terms p' = terms p ++ [terms_] /\
       credits p' = credits p ++ [credits_] /\
       get_class_terms p' class_name = Ok terms_ /\
       get_class_credits p' class_name = Ok credits_ /\
       List.length (classes p') = S (List.length (classes p))).
Proof.
  rewrite add_class_run.
  destruct (list_mem class_name (classes p)) eqn:Hmem.
  - apply list_mem_In in Hmem.
    split; [|split; [|split; [|split]]]; try (intros; contradiction).
    + reflexivity.
    + intros e p' [= <- <-]. auto.
  - apply list_mem_not_In in Hmem.
    destruct (valid_terms_dec terms_) as [Hok|Hbad].
    + assert (Hall : forallb (fun t => list_mem t VALID_TERMS) terms_ = true).
      { apply forallb_forall. intros t Ht. apply list_mem_In; auto. }
      rewrite Hall.
      assert (Hno : ~ exists t, In t terms_ /\ ~ In t VALID_TERMS).
      { intros [t [Ht Hbad]]. auto. }
      destruct (Z.leb_spec credits_ 0) as [Hle|Hgt].
      * split; [|split; [|split; [|split]]]; try (intros; contradiction);
          try (intros; lia).
        -- reflexivity.
        -- intros e p' [= <- <-]. auto.
      * split; [|split; [|split; [|split]]]; try (intros; contradiction);
          try (intros; lia); try (intros; discriminate).
        intros _ _ _. eexists. split; [reflexivity|].
        unfold get_class_terms, get_class_credits. simpl.
        rewrite !dict_get_set_eq, length_app. simpl.
        repeat split; auto. lia.
    + assert (Hall : forallb (fun t => list_mem t VALID_TERMS) terms_ = false).
      { destruct Hbad as [t [Ht Hbad]].
        destruct (forallb _ terms_) eqn:E; [|reflexivity].
        rewrite forallb_forall in E. apply E in Ht.
        apply list_mem_In in Ht. contradiction. }
      rewrite Hall.
      assert (Hno : ~ forall t, In t terms_ -> In t VALID_TERMS).
      { intros Hok. destruct Hbad as [t [Ht Hbad]]. auto. }
      split; [|split; [|split; [|split]]]; try (intros; contradiction).
      * reflexivity.
      * intros e p' [= <- <-]. auto.
Qed.

(** C7.  Each of the three faults makes [add_class] raise [ValueError] and
    leave the planner exactly as it was: a name already in [classes], a term
    outside F, W, S, or [credits <= 0].  The checks are made in this order
    and the first one that fails decides the message: the duplicate error;
    otherwise the term error; otherwise the credits error.  A call fails
    only for one of these faults.  Without any of them the call succeeds,
    the class is appended with its terms and credits, both lookups find it,
    and the catalogue has one class more. *)
Theorem add_class_checks_then_inserts (p : Planner) (class_name : string)
    (terms_ : list string) (credits_ : Z) :
  (In class_name (classes p) \/
   (exists t, In t terms_ /\ ~ In t VALID_TERMS) \/
   credits_ <= 0 ->
   exists msg,
     add_class class_name terms_ credits_ p = (Raise (ValueError msg), p)) /\
  (In class_name (classes p) ->
     add_class class_name terms_ credits_ p
     = (Raise (ValueError MSG_DUPLICATE), p)) /\
  (~ In class_name (classes p) ->
     (exists t, In t terms_ /\ ~ In t VALID_TERMS) ->
     add_class class_name terms_ credits_ p
     = (Raise (ValueError MSG_TERM), p)) /\
  (~ In class_name (classes p) ->
     (forall t, In t terms_ -> In t VALID_TERMS) ->
     credits_ <= 0 ->
     add_class class_name terms_ credits_ p
     = (Raise (ValueError MSG_CREDITS), p)) /\
  (forall e p', add_class class_name terms_ credits_ p = (Raise e, p') ->
     p' = p /\
     (In class_name (classes p) \/
      (exists t, In t terms_ /\ ~ In t VALID_TERMS) \/
      credits_ <= 0)) /\
  (~ In class_name (classes p) ->
     (forall t, In t terms_ -> In t VALID_TERMS) ->
     0 < credits_ ->
     exists p',
       add_class class_name terms_ credits_ p = (Ok tt, p') /\
       classes p' = classes p ++ [class_name] /\
       terms p' = terms p ++ [terms_] /\
       credits p' = credits p ++ [credits_] /\
       get_class_terms p' class_name = Ok terms_ /\
       get_class_credits p' class_name = Ok credits_ /\
       List.length (classes p') = S (List.length (classes p))).
Proof.
  split; [|apply add_class_cases].
  destruct (add_class_cases p class_name terms_ credits_)
    as (Hdup & Hterm & Hcred & _).
  intros Hfault.
  destruct (in_dec string_dec class_name (classes p)) as [Hin|Hout];
    [eauto|].
  destruct (valid_terms_dec terms_) as [Hok|Hbad]; [|eauto].
  destruct (Z.leb_spec credits_ 0) as [Hle|Hgt]; [eauto|].
  exfalso. destruct Hfault as [H|[(t & Ht & Hbad)|H]]; [auto|auto|lia].
Qed.

Lemma add_class_checks_then_inserts_witness :
  (exists msg,
     add_class "A" ["Z"] 4 planner_AB = (Raise (ValueError msg), planner_AB)) /\
  add_class "A" ["Z"] 0 planner_AB
    = (Raise (ValueError MSG_DUPLICATE), planner_AB) /\
  add_class "MATH 101" ["Z"] 4 planner_AB
    = (Raise (ValueError MSG_TERM), planner_AB) /\
  add_class "MATH 101" ["F"; "W"] 0 planner_AB
    = (Raise (ValueError MSG_CREDITS), planner_AB) /\
  exists p',
    add_class "MATH 101" ["F"; "W"] 4 planner_AB = (Ok tt, p') /\
    classes p' = ["A"; "B"; "MATH 101"] /\
    List.length (classes p') = 3%nat.
Proof.
  split; [|split; [|split; [|split]]].
  - apply (proj1 (add_class_checks_then_inserts planner_AB "A" ["Z"] 4)).
    right. left. exists "Z". split; [now left|].
    simpl. intros [H|[H|[H|[]]]]; discriminate.
  - apply (add_class_checks_then_inserts planner_AB "A" ["Z"] 0).
    simpl. now left.
  - apply (add_class_checks_then_inserts planner_AB "MATH 101" ["Z"] 4).
    + simpl. intros [H|[H|[]]]; discriminate.
    + exists "Z". split; [now left|].
      simpl. intros [H|[H|[H|[]]]]; discriminate.
  - apply (add_class_checks_then_inserts planner_AB "MATH 101" ["F"; "W"] 0).
    + simpl. intros [H|[H|[]]]; discriminate.
    + simpl. intros t [<-|[<-|[]]]; auto.
    + lia.
  - destruct (add_class_checks_then_inserts planner_AB "MATH 101" ["F"; "W"] 4)
      as (_ & _ & _ & _ & _ & Hok).
    destruct Hok as (p' & Hrun & Hcs & _ & _ & _ & _ & Hlen).
    + simpl. intros [H|[H|[]]]; discriminate.
    + simpl. intros t [<-|[<-|[]]]; auto.
    + lia.
    + exists p'. split; [exact Hrun|]. split; [exact Hcs|exact Hlen].
Defined.

(** ** The scenarios, by evaluation *)

(** C1.  A class with room in two of its terms is put into both slots of the
    same year, is recorded twice in [classes_added], and the second removal
    from the working copy raises [KeyError]: no schedule is returned. *)
Theorem create_schedule_two_terms_raises :
  create_schedule planner_two_terms fresh =
  (Raise (KeyError (KStr "MATH 101")),
   {| schedule := [(22, [("F", [("MATH 101", 4)]);
                         ("W", [("MATH 101", 4)]);
                         ("S", [])])];
      total_credits := 8;
      class_terms_copy := [];
      classes_added := ["MATH 101"; "MATH 101"];
      stdout := [Banner; QuotaWarning 4; Banner;
                 AddedLine "MATH 101" ["MATH 101"; "MATH 101"];
                 AddedLine "MATH 101" ["MATH 101"; "MATH 101"]] |}).
Proof. vm_compute. reflexivity. Qed.

(** C2.  For the single class X (terms F, W, S; 6 credits) the call raises
    [KeyError] after X was put into all three slots of year 22. *)
Theorem create_schedule_X_raises :
  run_create_schedule planner_X =
    (Raise (KeyError (KStr "X")),
     [Banner; QuotaWarning 6; Banner;
      AddedLine "X" ["X"; "X"; "X"]; AddedLine "X" ["X"; "X"; "X"]]) /\
  schedule (snd (create_schedule planner_X fresh)) =
    [(22, [("F", [("X", 6)]); ("W", [("X", 6)]); ("S", [("X", 6)])])].
Proof. split; vm_compute; reflexivity. Qed.

(** ** The empty catalogue *)

Lemma consistent_empty (p : Planner) :
  consistent p -> classes p = [] ->
  terms p = [] /\ credits p = [] /\ class_terms p = [] /\ class_credits p = [].
Proof.
  intros (Hlt & Hlc & Hkt & Hkc & _) Hcs. rewrite Hcs in *. simpl in *.
  repeat split.
  - now apply length_zero_iff_nil.
  - now apply length_zero_iff_nil.
  - destruct (class_terms p) as [|[k v] d]; [reflexivity|].
    exfalso. apply (Hkt k). now left.
  - destruct (class_credits p) as [|[k v] d]; [reflexivity|].
    exfalso. apply (Hkc k). now left.
Qed.

(** C9.  On a catalogue without classes the call does not raise: it returns
    the four consecutive years from [start_year], each with the three empty
    slots F, W, S, and reports no remaining class (the quota warning, with
    a total of 0, is all that is printed). *)
Theorem create_schedule_empty_catalog (p : Planner) :
  consistent p -> classes p = [] ->
  run_create_schedule p =
    (Ok (empty_schedule (start_year p)), [Banner; QuotaWarning 0; Banner]) /\
  unplaced (snd (run_create_schedule p)) = [].
Proof.
  intros Hc Hcs.
  destruct (consistent_empty p Hc Hcs) as (_ & Hcr & Hct & _).
  assert (Hrun : run_create_schedule p =
    (Ok (empty_schedule (start_year p)), [Banner; QuotaWarning 0; Banner])).
  { unfold run_create_schedule, create_schedule, quota_check, years_of,
      get_total_credits.
    rewrite Hcr, Hct. cbn.
    repeat match goal with
    | |- context [Z.eqb ?a ?b] =>
        destruct (Z.eqb_spec a b); [lia|cbn]
    end.
    reflexivity. }
  rewrite Hrun. split; reflexivity.
Qed.

Lemma consistent_no_rows (fname : string) (year : Z) :
  consistent (planner_of_rows fname year []).
Proof.
  unfold consistent. simpl. repeat split; try tauto.
  - destruct i; discriminate.
  - destruct i; discriminate.
Qed.

Lemma create_schedule_empty_catalog_witness :
  run_create_schedule (planner_of_rows "classes.csv" 22 []) =
    (Ok (empty_schedule 22), [Banner; QuotaWarning 0; Banner]) /\
  unplaced (snd (run_create_schedule (planner_of_rows "classes.csv" 22 []))) = [].
Proof.
  apply (create_schedule_empty_catalog (planner_of_rows "classes.csv" 22 [])).
  - apply consistent_no_rows.
  - reflexivity.
Defined.

(** ** [remove_class] on a file with a repeated row *)

(** C10.  [__init__] accepts a file in which a class occurs twice, and the
    planner it builds is consistent; [remove_class] then drops one list
    entry but the only dict entry, so that the name is still in [classes]
    and no longer a key of [class_terms] or [class_credits]. *)
Theorem remove_class_repeated_row :
  init "classes.csv" 22
    {| columns := ["Class"; "Term"; "Credits"];
       rows := [("A", "F", 3); ("A", "F", 3)] |} = Ok planner_twice /\
  consistent planner_twice /\
  exists p',
    remove_class "A" planner_twice = (Ok tt, p') /\
    classes p' = ["A"] /\ terms p' = [["F"]] /\ credits p' = [3] /\
    class_terms p' = [] /\ class_credits p' = [] /\
    ~ consistent p'.
Proof.
  split; [reflexivity|]. split.
  - unfold consistent. simpl.
    split; [reflexivity|]. split; [reflexivity|].
    split; [tauto|]. split; [tauto|].
    intros [|[|i]] c; simpl.
    + intros [= <-]. split; reflexivity.
    + intros [= <-]. split; reflexivity.
    + destruct i; discriminate.
  - eexists. split; [vm_compute; reflexivity|]. simpl.
    repeat split. intros (_ & _ & Hkt & _). simpl in Hkt.
    apply (Hkt "A"). now left.
Qed.

(** * The year pass *)

(** ** One placement *)

Lemma place_run (self : Planner) (year : Z) (c term : string) (f : Frame) :
  place self year c term f =
  match dict_get (schedule f) year with
  | None => (Raise (KeyError (KInt year)), f)
  | Some ys =>
      match dict_get ys term with
      | None => (Raise (KeyError (KStr term)), f)
      | Some slot =>
          match dict_get (class_credits self) c with
          | None => (Raise (KeyError (KStr c)), f)
          | Some cr =>
              if sum (dict_values slot) + cr <=? MAX_CREDS
              then (Ok tt,
                    {| schedule :=
                         dict_set (schedule f) year
                           (dict_set ys term (dict_set slot c cr));
                       total_credits := total_credits f + cr;
                       class_terms_copy := class_terms_copy f;
                       classes_added := classes_added f ++ [c];
                       stdout := stdout f |})
              else (Ok tt, f)
          end
      end
  end.
Proof.
  unfold place, bind, gets, subscript, call, get_class_credits.
  destruct (dict_get (schedule f) year) as [ys|]; [|reflexivity].
  simpl. destruct (dict_get ys term) as [slot|]; [|reflexivity].
  simpl. destruct (dict_get (class_credits self) c) as [cr|]; [|reflexivity].
  simpl. destruct (sum (dict_values slot) + cr <=? MAX_CREDS); reflexivity.
Qed.

Lemma twice_app c l l' : twice c l -> twice c (l ++ l').
Proof.
  intros (l1 & l2 & l3 & ->). exists l1, l2, (l3 ++ l').
  rewrite <- !app_assoc. simpl. rewrite <- !app_assoc. reflexivity.
Qed.

Lemma In_twice c l : In c l -> twice c (l ++ [c]).
Proof.
  intros H. apply in_split in H. destruct H as (l1 & l2 & ->).
  exists l1, l2, []. rewrite <- app_assoc. reflexivity.
Qed.

Lemma twice_not_NoDup c l : twice c l -> ~ NoDup l.
Proof.
  intros (l1 & l2 & l3 & ->) Hnd. apply NoDup_remove_2 in Hnd.
  apply Hnd. apply in_or_app. right. apply in_or_app. right. now left.
Qed.

Lemma year_ok_empty self copy : year_ok self copy [] empty_year.
Proof.
  assert (H : forall t slot, dict_get empty_year t = Some slot -> slot = []).
  { intros t slot. simpl.
    destruct (String.eqb t "F"); [congruence|].
    destruct (String.eqb t "W"); [congruence|].
    destruct (String.eqb t "S"); [congruence|discriminate]. }
  constructor.
  - reflexivity.
  - intros t slot Hs. rewrite (H _ _ Hs). unfold MAX_CREDS. cbn. lia.
  - intros t slot k v Hs. rewrite (H _ _ Hs). discriminate.
  - intros c [].
  - intros c t1 t2 s1 s2 v1 v2 Hs. rewrite (H _ _ Hs). discriminate.
Qed.

Lemma year_ok_place self copy added ys c ts term slot cr :
  year_ok self copy added ys ->
  In (c, ts) copy -> In term ts ->
  dict_get ys term = Some slot ->
  dict_get (class_credits self) c = Some cr ->
  sum (dict_values slot) + cr <= MAX_CREDS ->
  year_ok self copy (added ++ [c]) (dict_set ys term (dict_set slot c cr)).
Proof.
  intros Hok Hc Ht Hslot Hcr Hroom.
  assert (Hget : forall t, dict_get (dict_set ys term (dict_set slot c cr)) t
            = if String.eqb term t then Some (dict_set slot c cr)
              else dict_get ys t).
  { intros t. destruct (String.eqb_spec term t) as [<-|Hne].
    - apply dict_get_set_eq.
    - now apply dict_get_set_neq. }
  assert (Hin : forall k v, dict_get (dict_set slot c cr) k = Some v ->
            (k = c /\ v = cr) \/ (k <> c /\ dict_get slot k = Some v)).
  { intros k v. destruct (String.eqb_spec c k) as [<-|Hne].
    - rewrite dict_get_set_eq. intros [= <-]. auto.
    - rewrite dict_get_set_neq by assumption. auto. }
  constructor.
  - rewrite (dict_keys_set_present _ _ _ _ Hslot). apply (yo_keys _ _ _ _ Hok).
  - intros t s. rewrite Hget. destruct (String.eqb_spec term t) as [<-|Hne].
    + intros [= <-]. rewrite sum_values_set.
      pose proof (yo_sum _ _ _ _ Hok _ _ Hslot) as Hsum.
      destruct (dict_get slot c) as [w|] eqn:Hold.
      * destruct (yo_val _ _ _ _ Hok _ _ _ _ Hslot Hold) as [Hw _].
        assert (w = cr) by congruence. lia.
      * lia.
    + apply (yo_sum _ _ _ _ Hok).
  - intros t s k v. rewrite Hget.
    destruct (String.eqb_spec term t) as [<-|Hne].
    + intros [= <-] Hk. apply Hin in Hk. destruct Hk as [[-> ->]|[Hne Hk]].
      * split; [assumption|]. split; [apply in_or_app; right; now left|].
        exists ts. auto.
      * destruct (yo_val _ _ _ _ Hok _ _ _ _ Hslot Hk) as (Hv & Ha & Hts).
        split; [assumption|]. split; [apply in_or_app; now left|assumption].
    + intros Hs Hk.
      destruct (yo_val _ _ _ _ Hok _ _ _ _ Hs Hk) as (Hv & Ha & Hts).
      split; [assumption|]. split; [apply in_or_app; now left|assumption].
  - intros c' Hc'. apply in_app_or in Hc'. destruct Hc' as [Hc'|[<-|[]]].
    + destruct (yo_added _ _ _ _ Hok _ Hc') as (t & s & v & Hs & Hv).
      destruct (String.eqb_spec term t) as [<-|Hne].
      * assert (s = slot) by congruence. subst s.
        destruct (String.eqb_spec c c') as [<-|Hne'].
        -- exists term, (dict_set slot c cr), cr.
           split; [apply dict_get_set_eq | apply dict_get_set_eq].
        -- exists term, (dict_set slot c cr), v.
           split; [apply dict_get_set_eq|].
           now rewrite dict_get_set_neq.
      * exists t, s, v. split; [|assumption].
        now rewrite dict_get_set_neq.
    + exists term, (dict_set slot c cr), cr.
      split; apply dict_get_set_eq.
  - intros c' t1 t2 s1 s2 v1 v2. rewrite !Hget.
    intros Hs1 Hv1 Hs2 Hv2 Hne.
    assert (Hold : forall t s v,
              (if String.eqb term t then Some (dict_set slot c cr)
               else dict_get ys t) = Some s ->
              dict_get s c' = Some v -> c' <> c ->
              exists s' v', dict_get ys t = Some s' /\ dict_get s' c' = Some v').
    { intros t s v Hs Hv Hcc.
      destruct (String.eqb_spec term t) as [<-|Hnt].
      - injection Hs as <-. rewrite dict_get_set_neq in Hv by congruence.
        eauto.
      - eauto. }
    destruct (String.eqb_spec c' c) as [->|Hcc].
    + apply In_twice.
      assert (Hother : forall t s v, term <> t ->
                (if String.eqb term t then Some (dict_set slot c cr)
                 else dict_get ys t) = Some s ->
                dict_get s c = Some v -> In c added).
      { intros t s v Hnt Hs Hv.
        destruct (String.eqb_spec term t) as [E|_]; [contradiction|].
        apply (yo_val _ _ _ _ Hok _ _ _ _ Hs Hv). }
      destruct (String.eqb_spec term t1) as [<-|Hn1].
      * apply (Hother t2 s2 v2); auto.
      * apply (Hother t1 s1 v1); auto.
        destruct (String.eqb_spec term t1); [contradiction|assumption].
    + apply twice_app.
      destruct (Hold _ _ _ Hs1 Hv1 Hcc) as (s1' & v1' & Hs1' & Hv1').
      destruct (Hold _ _ _ Hs2 Hv2 Hcc) as (s2' & v2' & Hs2' & Hv2').
      apply (yo_twice _ _ _ _ Hok c' t1 t2 s1' s2' v1' v2'); auto.
Qed.

Lemma place_post self year sched0 copy out c ts term f :
  In (c, ts) copy -> In term ts ->
  placing self year sched0 copy out f ->
  post (place self year c term) f
    (fun _ f' => placing self year sched0 copy out f')
    (fun _ f' => stdout f' = out).
Proof.
  intros Hc Ht (Hcopy & Hout & ys & Hs & Hok).
  unfold post. rewrite place_run, Hs, dict_get_set_eq.
  destruct (dict_get ys term) as [slot|] eqn:Hslot; [|assumption].
  destruct (dict_get (class_credits self) c) as [cr|] eqn:Hcr; [|assumption].
  destruct (Z.leb_spec (sum (dict_values slot) + cr) MAX_CREDS) as [Hroom|_].
  - split; [assumption|]. split; [assumption|].
    exists (dict_set ys term (dict_set slot c cr)). simpl. split.
    + apply dict_set_set.
    + eapply year_ok_place; eauto.
  - split; [assumption|]. split; [assumption|]. exists ys. auto.
Qed.

(** ** Removing the placed classes from the working copy *)

Lemma pop_all_snoc {V : Type} (d d' d'' : Dict string V) l c v :
  pop_all d l = Some d' -> dict_pop d' c = Some (v, d'') ->
  pop_all d (l ++ [c]) = Some d''.
Proof.
  revert d. induction l as [|x l IH]; intros d; simpl.
  - intros [= ->] ->. reflexivity.
  - destruct (dict_pop d x) as [[w e]|]; [|discriminate]. apply IH.
Qed.

Lemma pop_all_incl {V : Type} (d d' : Dict string V) l :
  pop_all d l = Some d' -> incl d' d.
Proof.
  revert d. induction l as [|x l IH]; intros d; simpl.
  - intros [= ->]. apply incl_refl.
  - destruct (dict_pop d x) as [[w e]|] eqn:E; [|discriminate].
    intros H. eapply incl_tran; [apply (IH _ H)|].
    eapply dict_pop_incl; eauto.
Qed.

Lemma pop_all_get_other {V : Type} (d d' : Dict string V) l k :
  pop_all d l = Some d' -> ~ In k l -> dict_get d' k = dict_get d k.
Proof.
  revert d. induction l as [|x l IH]; intros d; simpl.
  - intros [= ->] _. reflexivity.
  - destruct (dict_pop d x) as [[w e]|] eqn:E; [|discriminate].
    intros H Hni. rewrite (IH _ H) by tauto.
    eapply dict_pop_get_neq; eauto.
Qed.

Lemma pop_all_wf {V : Type} (d d' : Dict string V) l :
  pop_all d l = Some d' -> dict_wf d ->
  dict_wf d' /\ NoDup l /\
  forall k, In k l -> dict_get d' k = None /\ In k (dict_keys d).
Proof.
  revert d. induction l as [|x l IH]; intros d; simpl.
  - intros [= ->] Hwf. split; [assumption|]. split; [constructor|tauto].
  - destruct (dict_pop d x) as [[w e]|] eqn:E; [|discriminate].
    intros H Hwf. destruct (dict_pop_wf _ _ _ _ E Hwf) as [Hwe Hxe].
    destruct (IH _ H Hwe) as (Hwf' & Hnd & Hl).
    assert (Hx' : dict_get d' x = None).
    { destruct (dict_get d' x) as [u|] eqn:Hu; [|reflexivity].
      apply dict_get_In in Hu. apply (pop_all_incl _ _ _ H) in Hu.
      apply (In_dict_get _ _ _ Hwe) in Hu. congruence. }
    split; [assumption|]. split.
    + constructor; [|assumption]. intros Hin.
      destruct (Hl _ Hin) as [_ Hk]. apply dict_get_None in Hxe. contradiction.
    + intros k [<-|Hk].
      * split; [assumption|]. eapply dict_get_key, dict_pop_get; eauto.
      * destruct (Hl _ Hk) as [Hn Hke]. split; [assumption|].
        apply dict_key_get in Hke. destruct Hke as [u Hu].
        apply dict_get_In, (dict_pop_incl _ _ _ _ E) in Hu.
        unfold dict_keys. apply in_map_iff. now exists (k, u).
Qed.

Lemma forget_run (added : list string) (c : string) (f : Frame) :
  forget added c f =
  match dict_pop (class_terms_copy f) c with
  | Some (_, copy') =>
      (Ok tt,
       {| schedule := schedule f; total_credits := total_credits f;
          class_terms_copy := copy';
          classes_added := classes_added f;
          stdout := stdout f ++ [AddedLine c added] |})
  | None =>
      (Raise (KeyError (KStr c)),
       {| schedule := schedule f; total_credits := total_credits f;
          class_terms_copy := class_terms_copy f;
          classes_added := classes_added f;
          stdout := stdout f ++ [AddedLine c added] |})
  end.
Proof.
  unfold forget, bind, print, modify, gets. simpl.
  destruct (dict_pop (class_terms_copy f) c) as [[v copy']|]; reflexivity.
Qed.

Lemma quota_warned_added out l added :
  quota_warned (out ++ map (fun c => AddedLine c added) l) = quota_warned out.
Proof.
  unfold quota_warned. rewrite existsb_app.
  induction l as [|x l IH]; simpl in *; [apply orb_false_r | assumption].
Qed.

Lemma forget_loop (added l : list string) (f : Frame) :
  post (for_ l (forget added)) f
    (fun _ f' =>
       schedule f' = schedule f /\ classes_added f' = classes_added f /\
       pop_all (class_terms_copy f) l = Some (class_terms_copy f') /\
       stdout f' = stdout f ++ map (fun c => AddedLine c added) l)
    (fun _ f' => quota_warned (stdout f') = quota_warned (stdout f)).
Proof.
  apply (post_for l (forget added)
    (fun done f' =>
       schedule f' = schedule f /\ classes_added f' = classes_added f /\
       pop_all (class_terms_copy f) done = Some (class_terms_copy f') /\
       stdout f' = stdout f ++ map (fun c => AddedLine c added) done)).
  - intros done x todo g _ (Hs & Ha & Hp & Ho).
    unfold post. rewrite forget_run.
    destruct (dict_pop (class_terms_copy g) x) as [[v copy']|] eqn:E; simpl.
    + split; [assumption|]. split; [assumption|]. split.
      * eapply pop_all_snoc; eauto.
      * rewrite Ho, map_app, <- app_assoc. reflexivity.
    + rewrite Ho, <- app_assoc.
      change ([AddedLine x added]) with (map (fun c => AddedLine c added) [x]).
      rewrite <- map_app. apply quota_warned_added.
  - simpl. rewrite app_nil_r. auto.
Qed.

(** ** The whole pass of one year *)

Lemma year_pass_post (self : Planner) (year : Z) (f : Frame) :
  post (year_pass self year) f
    (fun _ f' => year_step self year f f')
    (fun _ f' => quota_warned (stdout f') = quota_warned (stdout f)).
Proof.
  unfold year_pass.
  apply post_bind. unfold post at 1, modify.
  apply post_bind. unfold post at 1, modify.
  apply post_bind. unfold post at 1, gets. simpl.
  set (P := placing self year (schedule f) (class_terms_copy f) (stdout f)).
  apply post_bind.
  apply post_weaken with
    (Q := fun _ f' => P f')
    (E := fun _ f' => stdout f' = stdout f).
  - apply (post_for (class_terms_copy f) _ (fun _ f' => P f')).
    + intros done [c ts] todo g Hitems HP. simpl.
      apply (post_for ts _ (fun _ f' => P f')); [|assumption].
      intros done' term todo' g' Hts HP'.
      apply place_post with (ts := ts); [| |assumption].
      * rewrite Hitems. apply in_or_app. right. now left.
      * rewrite Hts. apply in_or_app. right. now left.
    + split; [reflexivity|]. split; [reflexivity|].
      exists empty_year. split; [reflexivity|]. apply year_ok_empty.
  - intros _ g (Hcopy & Hout & ys & Hs & Hok).
    apply post_bind. unfold post at 1, gets.
    eapply post_weaken; [apply forget_loop| |].
    + intros _ g' (Hs' & Ha' & Hp' & Ho'). exists ys, (classes_added g).
      rewrite Hs', Ha', Ho', Hout. rewrite Hcopy in Hp'. auto.
    + intros e g' Hq. simpl in Hq. rewrite Hq, Hout. reflexivity.
  - intros e g Hq. simpl in Hq. now rewrite Hq.
Qed.

(** * The four years *)

Lemma year_step_quota self year f f' :
  year_step self year f f' ->
  quota_warned (stdout f') = quota_warned (stdout f).
Proof.
  intros (ys & added & _ & _ & _ & _ & Ho). rewrite Ho.
  apply quota_warned_added.
Qed.

Lemma years_post (self : Planner) (l : list Z) (f : Frame) :
  post (for_ l (year_pass self)) f
    (fun _ f' => year_steps self l f f')
    (fun _ f' => quota_warned (stdout f') = quota_warned (stdout f)).
Proof.
  revert f. induction l as [|year l IH]; intros f; simpl.
  - constructor.
  - apply post_bind.
    eapply post_weaken; [apply year_pass_post| |auto].
    intros a f' Hstep. simpl in Hstep.
    eapply post_weaken; [apply IH| |].
    + intros b f'' Hsteps. econstructor; eauto.
    + intros e f'' Hq. simpl in Hq. rewrite Hq.
      eapply year_step_quota; eauto.
Qed.

Lemma create_schedule_post (self : Planner) (f : Frame) :
  post (create_schedule self) f
    (fun s f' => exists g,
       year_steps self (years_of self) (start_frame self f) g /\
       s = schedule g /\
       class_terms_copy f' = class_terms_copy g /\
       stdout f' = stdout g ++ remaining_warning (class_terms_copy g))
    (fun _ f' =>
       quota_warned (stdout f') = quota_warned (stdout (start_frame self f))).
Proof.
  unfold create_schedule.
  assert (Hq : quota_check self f =
    (Ok tt, {| schedule := schedule f; total_credits := total_credits f;
               class_terms_copy := class_terms_copy f;
               classes_added := classes_added f;
               stdout := stdout (start_frame self f) |})).
  { unfold quota_check, start_frame. simpl.
    destruct (get_total_credits self <? QUOTA).
    - unfold bind, print, modify. simpl.
      rewrite <- !app_assoc. reflexivity.
    - unfold ret. rewrite app_nil_r. destruct f; reflexivity. }
  apply post_bind. unfold post at 1. rewrite Hq.
  apply post_bind. unfold post at 1, modify.
  apply post_bind. unfold post at 1, modify.
  apply post_bind. unfold post at 1, modify.
  apply post_bind.
  eapply post_weaken; [apply years_post| |].
  - intros a g Hsteps. simpl in Hsteps.
    apply post_bind. unfold post at 1, gets.
    apply post_bind. unfold remaining_warning.
    destruct (0 <? Z.of_nat (List.length (class_terms_copy g))) eqn:E.
    + unfold print, modify, post, gets. simpl. exists g.
      rewrite E. split; [exact Hsteps|auto].
    + unfold ret, post, gets. simpl. exists g.
      rewrite E, app_nil_r. split; [exact Hsteps|auto].
  - intros e g Hg. simpl in Hg. exact Hg.
Qed.

Lemma unplaced_skip (l l' : list Output) :
  existsb is_unplaced_warning l = false -> unplaced (l ++ l') = unplaced l'.
Proof.
  induction l as [|o l IH]; simpl; [reflexivity|].
  destruct o; simpl; try discriminate; exact IH.
Qed.

Lemma year_steps_stdout self l f g :
  year_steps self l f g ->
  existsb is_unplaced_warning (stdout f) = false ->
  existsb is_unplaced_warning (stdout g) = false.
Proof.
  induction 1 as [|year l f f' f'' Hstep _ IH]; [auto|].
  intros Hf. apply IH.
  destruct Hstep as (ys & added & _ & _ & _ & _ & Ho).
  rewrite Ho, existsb_app, Hf. simpl.
  clear. generalize added at 1. intros a.
  induction added; simpl; auto.
Qed.

(** What a caller learns from a call that returns. *)
Lemma run_create_schedule_ok (self : Planner) (s : Schedule) (out : list Output) :
  run_create_schedule self = (Ok s, out) ->
  exists g,
    year_steps self (years_of self) (start_frame self fresh) g /\
    s = schedule g /\
    unplaced out = dict_keys (class_terms_copy g).
Proof.
  unfold run_create_schedule.
  pose proof (create_schedule_post self fresh) as H. unfold post in H.
  destruct (create_schedule self fresh) as [[s'|e] f']; [|discriminate].
  intros [= -> <-]. destruct H as (g & Hsteps & Hs & Hc & Ho).
  exists g. split; [assumption|]. split; [assumption|].
  rewrite Ho. rewrite unplaced_skip.
  - unfold remaining_warning.
    destruct (class_terms_copy g); reflexivity.
  - apply (year_steps_stdout _ _ _ _ Hsteps).
    unfold start_frame. simpl.
    destruct (get_total_credits self <? QUOTA); reflexivity.
Qed.

(** ** What holds between the year passes *)

Lemma placed_at_set (s : Schedule) (y : Z) (ys : YearSchedule) y' t c :
  placed_at (dict_set s y ys) y' t c <->
  (y' = y /\ in_year ys t c) \/ (y' <> y /\ placed_at s y' t c).
Proof.
  unfold placed_at, slot_of, in_year.
  destruct (Z.eq_dec y' y) as [->|Hne].
  - rewrite dict_get_set_eq. split; [auto|]. intros [[_ H]|[H _]]; tauto.
  - rewrite dict_get_set_neq by congruence. split; [auto|].
    intros [[H _]|[_ H]]; tauto.
Qed.

Lemma placed_at_absent (s : Schedule) (y : Z) t c :
  dict_get s y = None -> ~ placed_at s y t c.
Proof.
  intros Hn (slot & v & Hs & _). unfold slot_of in Hs. rewrite Hn in Hs.
  discriminate.
Qed.

Lemma sched_inv_step self year done f f' :
  year_step self year f f' -> ~ In year done ->
  sched_inv self done f -> sched_inv self (done ++ [year]) f'.
Proof.
  intros (ys & added & Hs & Hok & _ & Hpop & _) Hfresh [Hk Hi Hy].
  assert (Hnone : dict_get (schedule f) year = None).
  { apply dict_get_None. now rewrite Hk. }
  constructor.
  - rewrite Hs, (dict_keys_set_absent _ _ _ Hnone), Hk. reflexivity.
  - eapply incl_tran; [eapply pop_all_incl; eauto | assumption].
  - intros y ys'. rewrite Hs. destruct (Z.eq_dec year y) as [<-|Hne].
    + rewrite dict_get_set_eq. intros [= <-].
      exists (class_terms_copy f), added. auto.
    + rewrite dict_get_set_neq by assumption. apply Hy.
Qed.

Lemma sched_inv_steps self l f g :
  year_steps self l f g ->
  forall done, NoDup (done ++ l) ->
  sched_inv self done f -> sched_inv self (done ++ l) g.
Proof.
  induction 1 as [f|year l f f' f'' Hstep _ IH]; intros done Hnd Hinv.
  - now rewrite app_nil_r.
  - replace (done ++ year :: l) with ((done ++ [year]) ++ l)
      by (rewrite <- app_assoc; reflexivity).
    apply IH.
    + rewrite <- app_assoc. exact Hnd.
    + eapply sched_inv_step; eauto.
      apply NoDup_remove_2 in Hnd. intros Hin. apply Hnd.
      apply in_or_app. now left.
Qed.

Lemma years_of_NoDup (self : Planner) : NoDup (years_of self).
Proof.
  unfold years_of.
  repeat (constructor; [simpl; intros H; repeat destruct H as [H|H]; lia|]).
  constructor.
Qed.

Lemma sched_inv_start self f : sched_inv self [] (start_frame self f).
Proof.
  constructor; simpl.
  - reflexivity.
  - apply incl_refl.
  - discriminate.
Qed.

(** The invariant of a call that returns, at the frame it returns from. *)
Lemma run_sched_inv (self : Planner) (s : Schedule) (out : list Output) :
  run_create_schedule self = (Ok s, out) ->
  exists g, s = schedule g /\ sched_inv self (years_of self) g.
Proof.
  intros Hrun. apply run_create_schedule_ok in Hrun.
  destruct Hrun as (g & Hsteps & Hs & _). exists g. split; [assumption|].
  apply (sched_inv_steps _ _ _ _ Hsteps []).
  - apply years_of_NoDup.
  - apply sched_inv_start.
Qed.

(** ** A class that finds no room is tried again the next year *)

Lemma year_pass_ok (self : Planner) (year : Z) (f f' : Frame) :
  year_pass self year f = (Ok tt, f') -> year_step self year f f'.
Proof.
  intros H. pose proof (year_pass_post self year f) as Hp.
  unfold post in Hp. rewrite H in Hp. exact Hp.
Qed.

(** C8.  With A (fall, 18 credits) before B (fall, 4 credits) and first year
    22, the call returns a schedule with A alone in fall of year 22, where it
    fills the 18 credits, B in no slot of year 22, and B in fall of year 23;
    nothing is reported as remaining.  In general, a class that a completed
    year pass did not place is left in the working copy with its terms, so
    the pass of the next year iterates over it again. *)
Theorem create_schedule_AB :
  (exists s out,
     run_create_schedule planner_AB = (Ok s, out) /\
     s = schedule_AB /\
     placed_at s 22 "F" "A" /\
     (forall slot, slot_of s 22 "F" = Some slot ->
        sum (dict_values slot) = MAX_CREDS) /\
     (forall term, ~ placed_at s 22 term "B") /\
     placed_at s 23 "F" "B" /\
     unplaced out = []) /\
  (forall (self : Planner) (year : Z) (f f' : Frame),
     year_pass self year f = (Ok tt, f') ->
     forall c, ~ In c (classes_added f') ->
       dict_get (class_terms_copy f') c = dict_get (class_terms_copy f) c).
Proof.
  split.
  - eexists. eexists. split; [vm_compute; reflexivity|].
    split; [reflexivity|]. split; [|split; [|split; [|split]]].
    + exists [("A", 18)], 18. split; reflexivity.
    + intros slot [= <-]. reflexivity.
    + intros term (slot & v & Hslot & Hget).
      unfold slot_of in Hslot. simpl in Hslot.
      destruct (String.eqb term "F"); [injection Hslot as <-; discriminate|].
      destruct (String.eqb term "W"); [injection Hslot as <-; discriminate|].
      destruct (String.eqb term "S"); [injection Hslot as <-; discriminate|].
      discriminate.
    + exists [("B", 4)], 4. split; reflexivity.
    + reflexivity.
  - intros self year f f' Hrun c Hc.
    destruct (year_pass_ok _ _ _ _ Hrun) as (ys & added & _ & _ & Ha & Hpop & _).
    rewrite <- Ha in Hpop. eapply pop_all_get_other; eauto.
Qed.

Lemma create_schedule_AB_witness :
  dict_get
    (class_terms_copy (snd (year_pass planner_AB 22 (start_frame planner_AB fresh))))
    "B" = Some ["F"].
Proof.
  rewrite (proj2 create_schedule_AB planner_AB 22
             (start_frame planner_AB fresh)
             (snd (year_pass planner_AB 22 (start_frame planner_AB fresh)))).
  - reflexivity.
  - vm_compute. reflexivity.
  - vm_compute. intros [H|[]]. discriminate.
Defined.

(** ** The shape of a returned schedule *)

Lemma returned_schedule_shape (self : Planner) (s : Schedule)
    (out : list Output) :
  run_create_schedule self = (Ok s, out) ->
  dict_keys s = years_of self /\
  forall y ys, dict_get s y = Some ys -> dict_keys ys = ["F"; "W"; "S"].
Proof.
  intros Hrun. destruct (run_sched_inv _ _ _ Hrun) as (g & -> & Hinv).
  split.
  - apply (si_keys _ _ _ Hinv).
  - intros y ys Hy.
    destruct (si_years _ _ _ Hinv _ _ Hy) as (cp & added & _ & Hok).
    apply (yo_keys _ _ _ _ Hok).
Qed.

(** [NoDup] of a list of distinct string literals. *)
Ltac distinct_names :=
  repeat (constructor; [simpl; intuition discriminate|]);
  constructor.

(** C3.  In every schedule that [create_schedule] returns, the credits of
    the classes of any slot [schedule[year][term]] add up to at most 18. *)
Theorem slot_credits_within_cap (self : Planner) (s : Schedule)
    (out : list Output) :
  run_create_schedule self = (Ok s, out) ->
  forall year term slot,
    slot_of s year term = Some slot ->
    sum (dict_values slot) <= MAX_CREDS.
Proof.
  intros Hrun year term slot Hslot.
  destruct (run_sched_inv _ _ _ Hrun) as (g & -> & Hinv).
  unfold slot_of in Hslot.
  destruct (dict_get (schedule g) year) as [ys|] eqn:Hy; [|discriminate].
  destruct (si_years _ _ _ Hinv _ _ Hy) as (cp & added & _ & Hok).
  apply (yo_sum _ _ _ _ Hok _ _ Hslot).
Qed.

Lemma slot_credits_within_cap_witness :
  sum (dict_values [("A", 18)]) <= MAX_CREDS.
Proof.
  apply (slot_credits_within_cap planner_AB schedule_AB output_AB
           eq_refl 22 "F" [("A", 18)]).
  reflexivity.
Defined.

Lemma planner_of_rows_wf fname year rs :
  dict_wf (class_terms (planner_of_rows fname year rs)) /\
  dict_wf (class_credits (planner_of_rows fname year rs)).
Proof. split; apply dict_zip_wf. Qed.

(** C5.  In every schedule that [create_schedule] returns, a class found in
    a slot of term [term] has [term] among the terms stored for it. *)
Theorem placed_in_offered_term (self : Planner) (s : Schedule)
    (out : list Output) :
  dict_wf (class_terms self) ->
  run_create_schedule self = (Ok s, out) ->
  forall year term c,
    placed_at s year term c ->
    exists ts, get_class_terms self c = Ok ts /\ In term ts.
Proof.
  intros Hwf Hrun year term c (slot & v & Hslot & Hv).
  destruct (run_sched_inv _ _ _ Hrun) as (g & -> & Hinv).
  unfold slot_of in Hslot.
  destruct (dict_get (schedule g) year) as [ys|] eqn:Hy; [|discriminate].
  destruct (si_years _ _ _ Hinv _ _ Hy) as (cp & added & Hcp & Hok).
  destruct (yo_val _ _ _ _ Hok _ _ _ _ Hslot Hv) as (_ & _ & ts & Hin & Ht).
  exists ts. split; [|assumption].
  unfold get_class_terms. rewrite (In_dict_get _ _ _ Hwf (Hcp _ Hin)).
  reflexivity.
Qed.

Lemma placed_in_offered_term_witness :
  exists ts, get_class_terms planner_AB "B" = Ok ts /\ In "F" ts.
Proof.
  apply (placed_in_offered_term planner_AB schedule_AB output_AB)
    with (year := 23).
  - unfold dict_wf. simpl. distinct_names.
  - reflexivity.
  - exists [("B", 4)], 4. split; reflexivity.
Defined.

(** ** Placed and remaining classes *)

Lemma pop_all_keys {V : Type} (d d' : Dict string V) l :
  pop_all d l = Some d' -> dict_wf d ->
  forall k, In k (dict_keys d') <-> In k (dict_keys d) /\ ~ In k l.
Proof.
  intros Hpop Hwf k.
  destruct (pop_all_wf _ _ _ Hpop Hwf) as (_ & _ & Hpopped).
  split.
  - intros Hk. apply dict_key_get in Hk. destruct Hk as [v Hv].
    assert (Hni : ~ In k l).
    { intros Hin. destruct (Hpopped _ Hin) as [Hn _]. congruence. }
    split; [|assumption].
    rewrite (pop_all_get_other _ _ _ _ Hpop Hni) in Hv.
    eapply dict_get_key; eauto.
  - intros [Hk Hni]. apply dict_key_get in Hk. destruct Hk as [v Hv].
    rewrite <- (pop_all_get_other _ _ _ _ Hpop Hni) in Hv.
    eapply dict_get_key; eauto.
Qed.

Lemma part_inv_step self year f f' :
  year_step self year f f' ->
  dict_get (schedule f) year = None ->
  part_inv self f -> part_inv self f'.
Proof.
  intros (ys & added & Hs & Hok & _ & Hpop & _) Hnone [Hwf Hcov Hdis Honce].
  destruct (pop_all_wf _ _ _ Hpop Hwf) as (Hwf' & Hnd & _).
  pose proof (pop_all_keys _ _ _ Hpop Hwf) as Hkeys.
  assert (Hnew : forall t c, in_year ys t c ->
            In c added /\ In c (dict_keys (class_terms_copy f))).
  { intros t c (slot & v & Hslot & Hv).
    destruct (yo_val _ _ _ _ Hok _ _ _ _ Hslot Hv) as (_ & Ha & ts & Hin & _).
    split; [assumption|]. unfold dict_keys. apply in_map_iff.
    now exists (c, ts). }
  assert (Hplaced : forall c, placed (schedule f') c <->
            placed (schedule f) c \/ exists t, in_year ys t c).
  { intros c. rewrite Hs. unfold placed. split.
    - intros (y & t & H). apply placed_at_set in H.
      destruct H as [[_ H]|[_ H]]; eauto.
    - intros [(y & t & H)|(t & H)].
      + exists y, t. apply placed_at_set. right. split; [|assumption].
        intros ->. eapply placed_at_absent; eauto.
      + exists year, t. apply placed_at_set. now left. }
  constructor.
  - assumption.
  - intros c. rewrite Hcov, Hkeys, Hplaced. split.
    + intros [Hc|Hp]; [|now auto].
      destruct (in_dec string_dec c added) as [Ha|Hna]; [|now auto].
      right. right.
      destruct (yo_added _ _ _ _ Hok _ Ha) as (t & slot & v & H).
      exists t, slot, v. exact H.
    + intros [[Hc _]|[Hp|[t Hin]]]; auto. left. apply (Hnew t c Hin).
  - intros c Hp Hin. apply Hplaced in Hp. apply Hkeys in Hin.
    destruct Hin as [Hc Hna]. destruct Hp as [Hp|[t Ht]].
    + apply (Hdis c Hp Hc).
    + apply Hna, (Hnew t c Ht).
  - intros c y1 t1 y2 t2. rewrite Hs, !placed_at_set.
    intros [[-> H1]|[Hn1 H1]] [[-> H2]|[Hn2 H2]].
    + split; [reflexivity|].
      destruct (string_dec t1 t2) as [|Hne]; [assumption|]. exfalso.
      destruct H1 as (s1 & v1 & Hs1 & Hv1). destruct H2 as (s2 & v2 & Hs2 & Hv2).
      apply (twice_not_NoDup c added); [|assumption].
      apply (yo_twice _ _ _ _ Hok c t1 t2 s1 s2 v1 v2); assumption.
    + exfalso. apply (Hdis c); [now exists y2, t2 | apply (Hnew t1 c H1)].
    + exfalso. apply (Hdis c); [now exists y1, t1 | apply (Hnew t2 c H2)].
    + apply (Honce c); assumption.
Qed.

Lemma part_inv_steps self l f g :
  year_steps self l f g ->
  forall done, NoDup (done ++ l) ->
  sched_inv self done f -> part_inv self f -> part_inv self g.
Proof.
  induction 1 as [f|year l f f' f'' Hstep _ IH]; intros done Hnd Hinv Hpart.
  - assumption.
  - assert (Hfresh : ~ In year done).
    { apply NoDup_remove_2 in Hnd. intros Hin. apply Hnd.
      apply in_or_app. now left. }
    apply (IH (done ++ [year])).
    + rewrite <- app_assoc. exact Hnd.
    + eapply sched_inv_step; eauto.
    + eapply part_inv_step; eauto.
      apply dict_get_None. now rewrite (si_keys _ _ _ Hinv).
Qed.

Lemma part_inv_start self f :
  dict_wf (class_terms self) -> part_inv self (start_frame self f).
Proof.
  assert (Hno : forall y t c, ~ placed_at [] y t c).
  { intros y t c (slot & v & H & _). discriminate. }
  intros Hwf. constructor; simpl.
  - assumption.
  - intros c. split; [auto|]. intros [H|(y & t & H)]; [assumption|].
    exfalso. eapply Hno; eauto.
  - intros c (y & t & H). exfalso. eapply Hno; eauto.
  - intros c y1 t1 y2 t2 H. exfalso. eapply Hno; eauto.
Qed.

Lemma run_part_inv (self : Planner) (s : Schedule) (out : list Output) :
  dict_wf (class_terms self) ->
  run_create_schedule self = (Ok s, out) ->
  exists g,
    s = schedule g /\ unplaced out = dict_keys (class_terms_copy g) /\
    part_inv self g.
Proof.
  intros Hwf Hrun. apply run_create_schedule_ok in Hrun.
  destruct Hrun as (g & Hsteps & Hs & Hu). exists g.
  split; [assumption|]. split; [assumption|].
  apply (part_inv_steps _ _ _ _ Hsteps []).
  - apply years_of_NoDup.
  - apply sched_inv_start.
  - now apply part_inv_start.
Qed.

(** C4.  When [create_schedule] returns, a name is a key of
    [self.class_terms] exactly when it is reported as remaining or is found
    in some slot of the schedule, and no name is both. *)
Theorem remaining_and_placed_partition (self : Planner) (s : Schedule)
    (out : list Output) :
  dict_wf (class_terms self) ->
  run_create_schedule self = (Ok s, out) ->
  (forall c, In c (dict_keys (class_terms self)) <->
             In c (unplaced out) \/ placed s c) /\
  (forall c, In c (unplaced out) -> ~ placed s c).
Proof.
  intros Hwf Hrun.
  destruct (run_part_inv _ _ _ Hwf Hrun) as (g & -> & -> & Hpart).
  split.
  - apply (pi_cover _ _ Hpart).
  - intros c Hin Hp. apply (pi_disj _ _ Hpart c Hp Hin).
Qed.

Lemma remaining_and_placed_partition_witness :
  (forall c, In c ["A"; "B"; "C"] <->
             In c ["C"] \/
             placed [(22, [("F", [("A", 18)]); ("W", []); ("S", [])]);
                     (23, [("F", [("B", 4)]); ("W", []); ("S", [])]);
                     (24, [("F", []); ("W", []); ("S", [])]);
                     (25, [("F", []); ("W", []); ("S", [])])] c) /\
  (forall c, In c ["C"] ->
             ~ placed [(22, [("F", [("A", 18)]); ("W", []); ("S", [])]);
                       (23, [("F", [("B", 4)]); ("W", []); ("S", [])]);
                       (24, [("F", []); ("W", []); ("S", [])]);
                       (25, [("F", []); ("W", []); ("S", [])])] c).
Proof.
  apply (remaining_and_placed_partition planner_ABC schedule_AB
           [Banner; QuotaWarning 42; Banner;
            AddedLine "A" ["A"]; AddedLine "B" ["B"];
            UnplacedWarning ["C"]]).
  - unfold dict_wf. simpl. distinct_names.
  - vm_compute. reflexivity.
Defined.

(** In a schedule that is returned no class is in two slots. *)
Lemma returned_schedule_places_once (self : Planner) (s : Schedule)
    (out : list Output) :
  dict_wf (class_terms self) ->
  run_create_schedule self = (Ok s, out) ->
  forall c y1 t1 y2 t2,
    placed_at s y1 t1 c -> placed_at s y2 t2 c -> y1 = y2 /\ t1 = t2.
Proof.
  intros Hwf Hrun.
  destruct (run_part_inv _ _ _ Hwf Hrun) as (g & -> & _ & Hpart).
  apply (pi_once _ _ Hpart).
Qed.

(** * The quota check *)

(** ** What is printed does not influence what is computed *)

Lemma blind_ret {A : Type} (a : A) : blind (ret a).
Proof. intros f g H. split; [reflexivity | exact H]. Qed.

Lemma blind_raise {A : Type} (e : Exn) : blind (@raise Frame A e).
Proof. intros f g H. split; [reflexivity | exact H]. Qed.

Lemma blind_bind {A B : Type} (m : Py Frame A) (k : A -> Py Frame B) :
  blind m -> (forall a, blind (k a)) -> blind (bind m k).
Proof.
  intros Hm Hk f g H. unfold bind.
  destruct (Hm f g H) as [Hr Hs].
  destruct (m f) as [[a|e] f'], (m g) as [[b|e'] g']; simpl in *;
    try discriminate.
  - injection Hr as <-. apply Hk. exact Hs.
  - injection Hr as <-. split; [reflexivity | assumption].
Qed.

Lemma blind_for {A : Type} (l : list A) (body : A -> Py Frame unit) :
  (forall x, blind (body x)) -> blind (for_ l body).
Proof.
  intros Hbody. induction l as [|x l IH]; simpl.
  - apply blind_ret.
  - apply blind_bind; auto.
Qed.

Lemma blind_modify (h : Frame -> Frame) :
  (forall f g, same_locals f g -> same_locals (h f) (h g)) ->
  blind (modify h).
Proof. intros Hh f g H. split; [reflexivity | apply Hh, H]. Qed.

Lemma blind_gets {A : Type} (proj : Frame -> A) :
  (forall f g, same_locals f g -> proj f = proj g) -> blind (gets proj).
Proof.
  intros Hp f g H. unfold gets. simpl. split; [|exact H].
  now rewrite (Hp f g H).
Qed.

Lemma blind_print (o : Output) : blind (print o).
Proof. apply blind_modify. intros f g H. exact H. Qed.

Ltac blind_update :=
  apply blind_modify;
  let f := fresh "f" in let g := fresh "g" in
  intros f g (? & ? & ? & ?); unfold same_locals; simpl;
  repeat split; congruence.

Ltac blind_read :=
  apply blind_gets;
  let f := fresh "f" in let g := fresh "g" in
  intros f g (? & ? & ? & ?); assumption.

Lemma blind_subscript {K V : Type} {HK : Key K} (d : Dict K V) (k : K) :
  blind (subscript d k).
Proof.
  unfold subscript. destruct (dict_get d k); [apply blind_ret|apply blind_raise].
Qed.

Lemma blind_call {A : Type} (r : Result A) : blind (call r).
Proof. destruct r; [apply blind_ret|apply blind_raise]. Qed.

Lemma blind_place self year c term : blind (place self year c term).
Proof.
  unfold place. apply blind_bind; [blind_read|]. intros sched.
  apply blind_bind; [apply blind_subscript|]. intros ys.
  apply blind_bind; [apply blind_subscript|]. intros slot.
  apply blind_bind; [apply blind_call|]. intros cr.
  destruct (sum (dict_values slot) + cr <=? MAX_CREDS).
  - apply blind_bind; [blind_update|]. intros _.
    apply blind_bind; [blind_update|]. intros _. blind_update.
  - apply blind_ret.
Qed.

Lemma blind_forget added c : blind (forget added c).
Proof.
  unfold forget. apply blind_bind; [apply blind_print|]. intros _.
  apply blind_bind; [blind_read|]. intros copy.
  destruct (dict_pop copy c) as [[v copy']|]; [blind_update|apply blind_raise].
Qed.

Lemma blind_year_pass self year : blind (year_pass self year).
Proof.
  unfold year_pass.
  apply blind_bind; [blind_update|]. intros _.
  apply blind_bind; [blind_update|]. intros _.
  apply blind_bind; [blind_read|]. intros items.
  apply blind_bind.
  - apply blind_for. intros item. apply blind_for. intros term.
    apply blind_place.
  - intros _. apply blind_bind; [blind_read|]. intros added.
    apply blind_for. intros c. apply blind_forget.
Qed.

Lemma blind_build self : blind (build self).
Proof.
  unfold build.
  apply blind_bind; [blind_update|]. intros _.
  apply blind_bind; [blind_update|]. intros _.
  apply blind_bind; [blind_update|]. intros _.
  apply blind_bind.
  { apply blind_for. intros year. apply blind_year_pass. }
  intros _. apply blind_bind; [blind_read|]. intros copy.
  apply blind_bind.
  - destruct (0 <? Z.of_nat (List.length copy));
      [apply blind_print | apply blind_ret].
  - intros _. blind_read.
Qed.

Lemma quota_check_run (self : Planner) (f : Frame) :
  exists f', quota_check self f = (Ok tt, f') /\ same_locals f f' /\
             stdout f' = stdout (start_frame self f).
Proof.
  unfold quota_check, start_frame. simpl.
  destruct (get_total_credits self <? QUOTA).
  - eexists. split; [reflexivity|]. unfold same_locals. simpl.
    rewrite <- !app_assoc. repeat split.
  - exists f. rewrite app_nil_r. unfold same_locals. repeat split.
Qed.

Lemma year_steps_quota self l f g :
  year_steps self l f g -> quota_warned (stdout g) = quota_warned (stdout f).
Proof.
  induction 1 as [|year l f f' f'' Hstep _ IH]; [reflexivity|].
  rewrite IH. eapply year_step_quota; eauto.
Qed.

(** C6.  The quota warning is printed exactly when the sum of
    [self.credits] is below 180, so the quota is reported as met exactly
    when that sum is at least 180, whether the call returns or raises and
    whatever it places; and what the call returns (or raises) does not
    depend on [self.credits] at all. *)
Theorem quota_report_is_informational (self : Planner) :
  (quotaMet (snd (run_create_schedule self)) = true <->
   QUOTA <= get_total_credits self) /\
  (forall cs : list Z,
     fst (run_create_schedule (set_credits cs self))
     = fst (run_create_schedule self)).
Proof.
  split.
  - assert (H : quota_warned (snd (run_create_schedule self))
                = (get_total_credits self <? QUOTA)).
    { unfold run_create_schedule.
      pose proof (create_schedule_post self fresh) as H. unfold post in H.
      assert (Hstart : quota_warned (stdout (start_frame self fresh))
                       = (get_total_credits self <? QUOTA)).
      { unfold start_frame. simpl.
        destruct (get_total_credits self <? QUOTA); reflexivity. }
      destruct (create_schedule self fresh) as [[s|e] f']; simpl.
      - destruct H as (g & Hsteps & _ & _ & Ho). rewrite Ho.
        unfold quota_warned at 1. rewrite existsb_app.
        fold (quota_warned (stdout g)).
        rewrite (year_steps_quota _ _ _ _ Hsteps), Hstart.
        unfold remaining_warning.
        destruct (0 <? Z.of_nat (List.length (class_terms_copy g))); simpl;
          apply orb_false_r.
      - now rewrite H. }
    unfold quotaMet. fold (quota_warned (snd (run_create_schedule self))).
    rewrite H. destruct (Z.ltb_spec (get_total_credits self) QUOTA);
      simpl; split; intros; try lia; try discriminate; reflexivity.
  - intros cs. unfold run_create_schedule.
    change (create_schedule (set_credits cs self))
      with (quota_check (set_credits cs self) ;; build self).
    change (create_schedule self) with (quota_check self ;; build self).
    unfold bind.
    destruct (quota_check_run (set_credits cs self) fresh)
      as (f1 & -> & H1 & _).
    destruct (quota_check_run self fresh) as (f2 & -> & H2 & _).
    assert (H12 : same_locals f1 f2).
    { destruct H1 as (? & ? & ? & ?), H2 as (? & ? & ? & ?).
      unfold same_locals. repeat split; congruence. }
    destruct (blind_build self f1 f2 H12) as [Hr _].
    destruct (build self f1), (build self f2). exact Hr.
Qed.

(** * Consistency of the five structures under distinct names *)

(** ** Lists *)

Lemma list_index_nth (x : string) (l : list string) :
  In x l -> exists i, list_index x l = Some i /\ nth_error l i = Some x.
Proof.
  induction l as [|y l IH]; simpl; [tauto|]. intros Hin.
  destruct (String.eqb_spec x y) as [->|Hne].
  - exists O. auto.
  - destruct IH as (i & Hi & Hn); [destruct Hin; congruence|].
    exists (S i). rewrite Hi. auto.
Qed.

Lemma list_pop_split {A : Type} (l l' : list A) (i : nat) :
  list_pop l i = Some l' ->
  exists l1 x l2, l = l1 ++ x :: l2 /\ l' = l1 ++ l2 /\ List.length l1 = i.
Proof.
  revert l' i. induction l as [|y l IH]; intros l' i; simpl.
  - destruct i; discriminate.
  - destruct i as [|i].
    + intros [= <-]. exists [], y, l. auto.
    + destruct (list_pop l i) as [l0|] eqn:E; [|discriminate].
      intros [= <-]. destruct (IH _ _ E) as (l1 & x & l2 & -> & -> & <-).
      exists (y :: l1), x, l2. auto.
Qed.

Lemma list_pop_Some {A : Type} (l : list A) (i : nat) :
  (i < List.length l)%nat -> exists l', list_pop l i = Some l'.
Proof.
  revert i. induction l as [|y l IH]; intros i; simpl; [lia|].
  destruct i as [|i]; [eauto|]. intros Hi.
  destruct (IH i) as [l' ->]; [lia|]. simpl. eauto.
Qed.

Lemma nth_error_pop {A : Type} (l1 l2 : list A) (x : A) (j : nat) :
  nth_error (l1 ++ l2) j = nth_error (l1 ++ x :: l2) (before_pop (List.length l1) j).
Proof.
  unfold before_pop. destruct (Nat.ltb_spec j (List.length l1)).
  - now rewrite !nth_error_app1.
  - rewrite !nth_error_app2 by lia.
    replace (S j - List.length l1)%nat with (S (j - List.length l1)) by lia.
    reflexivity.
Qed.

(** ** The run of [remove_class] *)

Lemma remove_class_missing (p : Planner) (class_name : string) :
  ~ In class_name (classes p) ->
  remove_class class_name p = (Raise (ValueError MSG_MISSING), p).
Proof.
  intros H. apply list_mem_not_In in H.
  unfold remove_class, bind, gets. rewrite H. reflexivity.
Qed.

Lemma remove_class_ok (p : Planner) (class_name : string) i cs ts crs v ct w cc :
  In class_name (classes p) ->
  list_index class_name (classes p) = Some i ->
  list_pop (classes p) i = Some cs ->
  list_pop (terms p) i = Some ts ->
  list_pop (credits p) i = Some crs ->
  dict_pop (class_terms p) class_name = Some (v, ct) ->
  dict_pop (class_credits p) class_name = Some (w, cc) ->
  remove_class class_name p = (Ok tt, removed_class p cs ts crs ct cc).
Proof.
  intros Hin Hi Hcs Hts Hcrs Hct Hcc. apply list_mem_In in Hin.
  unfold remove_class, bind, gets. rewrite Hin. simpl. rewrite Hi.
  unfold pop_at, pop_key, bind, gets, modify. simpl.
  rewrite Hcs. simpl. rewrite Hts. simpl. rewrite Hcrs. simpl.
  rewrite Hct. simpl. rewrite Hcc. reflexivity.
Qed.

(** ** [add_class] and [remove_class] keep a planner well kept *)

Lemma well_kept_added (p : Planner) class_name terms_ credits_ :
  well_kept p -> ~ In class_name (classes p) ->
  well_kept (added_class p class_name terms_ credits_).
Proof.
  intros ((Hlt & Hlc & Hkt & Hkc & Hidx) & Hnd & Hwt & Hwc) Hnew.
  assert (Hnt : dict_get (class_terms p) class_name = None).
  { apply dict_get_None. now rewrite Hkt. }
  assert (Hnc : dict_get (class_credits p) class_name = None).
  { apply dict_get_None. now rewrite Hkc. }
  unfold well_kept, consistent. simpl.
  rewrite (dict_keys_set_absent _ _ terms_ Hnt).
  rewrite (dict_keys_set_absent _ _ credits_ Hnc).
  rewrite !length_app. simpl.
  split; [split; [lia|]; split; [lia|]; split; [|split]|].
  - intros c. rewrite !in_app_iff, Hkt. tauto.
  - intros c. rewrite !in_app_iff, Hkc. tauto.
  - intros i c Hn.
    destruct (Nat.lt_ge_cases i (List.length (classes p))) as [Hi|Hi].
    + rewrite nth_error_app1 in Hn by assumption.
      assert (Hne : class_name <> c).
      { intros <-. apply Hnew. eapply nth_error_In; eauto. }
      rewrite !dict_get_set_neq by assumption.
      rewrite !nth_error_app1 by lia. apply Hidx. assumption.
    + rewrite nth_error_app2 in Hn by assumption.
      rewrite !nth_error_app2 by lia. rewrite Hlt, Hlc.
      destruct (i - List.length (classes p))%nat as [|k]; simpl in *.
      * injection Hn as <-. rewrite !dict_get_set_eq. auto.
      * destruct k; discriminate.
  - split; [|split; apply dict_set_wf; assumption].
    apply NoDup_app; auto.
    + constructor; [tauto | constructor].
    + intros x Hx [<-|[]]. contradiction.
Qed.

Lemma add_class_kept (p p' : Planner) class_name terms_ credits_ r :
  well_kept p -> add_class class_name terms_ credits_ p = (r, p') ->
  well_kept p'.
Proof.
  intros Hk. rewrite add_class_run.
  destruct (list_mem class_name (classes p)) eqn:Hmem.
  - intros [= _ <-]. assumption.
  - apply list_mem_not_In in Hmem.
    destruct (forallb _ terms_); [|intros [= _ <-]; assumption].
    destruct (credits_ <=? 0); intros [= _ <-]; [assumption|].
    now apply well_kept_added.
Qed.

Lemma dict_pop_keys {V : Type} (d d' : Dict string V) k v :
  dict_pop d k = Some (v, d') -> dict_wf d ->
  forall c, In c (dict_keys d') <-> In c (dict_keys d) /\ c <> k.
Proof.
  intros Hpop Hwf c.
  assert (Hall : pop_all d [k] = Some d') by (simpl; now rewrite Hpop).
  rewrite (pop_all_keys _ _ _ Hall Hwf). simpl. intuition congruence.
Qed.

Lemma remove_class_kept (p p' : Planner) class_name r :
  well_kept p -> remove_class class_name p = (r, p') -> well_kept p'.
Proof.
  intros Hk.
  destruct (in_dec string_dec class_name (classes p)) as [Hin|Hout].
  2:{ rewrite remove_class_missing by assumption. intros [= _ <-]. exact Hk. }
  destruct Hk as ((Hlt & Hlc & Hkt & Hkc & Hidx) & Hnd & Hwt & Hwc).
  destruct (list_index_nth _ _ Hin) as (i & Hi & Hnth).
  assert (Hlen : (i < List.length (classes p))%nat).
  { apply nth_error_Some. congruence. }
  destruct (list_pop_Some (classes p) i Hlen) as [cs Hcs].
  destruct (list_pop_Some (terms p) i) as [ts Hts]; [lia|].
  destruct (list_pop_Some (credits p) i) as [crs Hcrs]; [lia|].
  destruct (dict_pop (class_terms p) class_name) as [[v ct]|] eqn:Hct.
  2:{ apply dict_pop_None, dict_get_None in Hct. rewrite Hkt in Hct.
      contradiction. }
  destruct (dict_pop (class_credits p) class_name) as [[w cc]|] eqn:Hcc.
  2:{ apply dict_pop_None, dict_get_None in Hcc. rewrite Hkc in Hcc.
      contradiction. }
  rewrite (remove_class_ok p class_name i cs ts crs v ct w cc) by assumption.
  intros [= _ <-].
  destruct (list_pop_split _ _ _ Hcs) as (c1 & x & c2 & Ec & -> & Hc1).
  destruct (list_pop_split _ _ _ Hts) as (t1 & tx & t2 & Et & -> & Ht1).
  destruct (list_pop_split _ _ _ Hcrs) as (r1 & rx & r2 & Er & -> & Hr1).
  assert (x = class_name).
  { rewrite Ec, <- Hc1, nth_error_app2, Nat.sub_diag in Hnth by lia.
    simpl in Hnth. congruence. }
  subst x. rewrite Ec in Hnd.
  pose proof (NoDup_remove_1 _ _ _ Hnd) as Hnd'.
  pose proof (NoDup_remove_2 _ _ _ Hnd) as Hgone.
  assert (Hmem : forall c, In c (c1 ++ c2) <-> In c (classes p) /\ c <> class_name).
  { intros c. rewrite Ec, !in_app_iff. simpl. rewrite in_app_iff in Hgone.
    split; [|intuition congruence].
    intros H. split; [tauto|]. intros ->. tauto. }
  unfold well_kept, consistent, removed_class. simpl.
  rewrite Ec, Et, Er, !length_app in *. simpl in *.
  destruct (dict_pop_wf _ _ _ _ Hct Hwt) as [Hwt' _].
  destruct (dict_pop_wf _ _ _ _ Hcc Hwc) as [Hwc' _].
  split; [split; [lia|]; split; [lia|]; split; [|split]|auto].
  - intros c. rewrite (dict_pop_keys _ _ _ _ Hct Hwt), Hkt, Hmem. tauto.
  - intros c. rewrite (dict_pop_keys _ _ _ _ Hcc Hwc), Hkc, Hmem. tauto.
  - intros j c Hj.
    assert (Hne : c <> class_name).
    { intros ->. apply Hgone. eapply nth_error_In; eauto. }
    rewrite (dict_pop_get_neq _ _ _ _ _ Hct Hne).
    rewrite (dict_pop_get_neq _ _ _ _ _ Hcc Hne).
    rewrite (nth_error_pop c1 c2 class_name) in Hj.
    rewrite (nth_error_pop t1 t2 tx), (nth_error_pop r1 r2 rx).
    rewrite Ht1, Hr1, <- Hc1. apply Hidx. exact Hj.
Qed.

(** ** A file without a repeated name gives a well-kept planner *)

Lemma combine_map {A B C : Type} (f : A -> B) (g : A -> C) (l : list A) :
  combine (map f l) (map g l) = map (fun a => (f a, g a)) l.
Proof. induction l as [|a l IH]; simpl; congruence. Qed.

Lemma dict_zip_snoc {A V : Type} (f : A -> string) (g : A -> V)
    (l : list A) (a : A) :
  dict_zip (map f (l ++ [a])) (map g (l ++ [a]))
  = dict_set (dict_zip (map f l) (map g l)) (f a) (g a).
Proof.
  unfold dict_zip. rewrite !combine_map, map_app, fold_left_app. reflexivity.
Qed.

Lemma planner_of_rows_snoc fname year rs r :
  planner_of_rows fname year (rs ++ [r])
  = added_class (planner_of_rows fname year rs)
      (fst (fst r)) (split_comma_space (snd (fst r))) (snd r).
Proof.
  unfold planner_of_rows, added_class. cbn [filename start_year classes terms
    credits class_terms class_credits].
  rewrite !dict_zip_snoc, !map_app. reflexivity.
Qed.

Lemma planner_of_rows_kept fname year rs :
  NoDup (map (fun r => fst (fst r)) rs) ->
  well_kept (planner_of_rows fname year rs).
Proof.
  induction rs as [|r rs IH] using rev_ind; intros Hnd.
  - split; [apply consistent_no_rows|].
    split; [constructor|]. split; constructor.
  - rewrite planner_of_rows_snoc. rewrite map_app in Hnd. simpl in Hnd.
    apply well_kept_added.
    + apply IH. eapply NoDup_app_remove_r; eauto.
    + simpl. apply NoDup_remove_2 in Hnd. now rewrite app_nil_r in Hnd.
Qed.

(** A planner read from a file without a repeated name stays consistent
    under every sequence of [add_class] and [remove_class], whether the
    calls succeed or fail. *)
Lemma consistent_under_distinct_names fname year rs p :
  NoDup (map (fun r => fst (fst r)) rs) ->
  reached (planner_of_rows fname year rs) p ->
  consistent p.
Proof.
  intros Hnd Hreach.
  assert (Hk : well_kept p); [|apply Hk].
  induction Hreach as [|p name ts cr r p' _ IH Hrun|p name r p' _ IH Hrun].
  - now apply planner_of_rows_kept.
  - eapply add_class_kept; eauto.
  - eapply remove_class_kept; eauto.
Qed.

(** Whatever the file holds, the two dicts of a planner have pairwise
    distinct keys, as every Python dict has. *)
Lemma remove_class_wf (p p' : Planner) class_name r :
  dict_wf (class_terms p) /\ dict_wf (class_credits p) ->
  remove_class class_name p = (r, p') ->
  dict_wf (class_terms p') /\ dict_wf (class_credits p').
Proof.
  intros [Hwt Hwc].
  unfold remove_class, bind, gets, raise_if, raise, ret.
  destruct (negb (list_mem class_name (classes p)));
    [intros [= _ <-]; auto|].
  destruct (list_index class_name (classes p)) as [i|];
    [|intros [= _ <-]; auto].
  unfold pop_at, pop_key, bind, gets, modify, raise. simpl.
  destruct (list_pop (classes p) i); [|intros [= _ <-]; auto]. simpl.
  destruct (list_pop (terms p) i); [|intros [= _ <-]; auto]. simpl.
  destruct (list_pop (credits p) i); [|intros [= _ <-]; auto]. simpl.
  destruct (dict_pop (class_terms p) class_name) as [[v ct]|] eqn:Hct;
    [|intros [= _ <-]; auto]. simpl.
  destruct (dict_pop_wf _ _ _ _ Hct Hwt) as [Hwt' _].
  destruct (dict_pop (class_credits p) class_name) as [[w cc]|] eqn:Hcc;
    [|intros [= _ <-]; auto]. simpl.
  destruct (dict_pop_wf _ _ _ _ Hcc Hwc) as [Hwc' _].
  intros [= _ <-]. auto.
Qed.

Lemma reached_wf fname year rs p :
  reached (planner_of_rows fname year rs) p ->
  dict_wf (class_terms p) /\ dict_wf (class_credits p).
Proof.
  induction 1 as [|p name ts cr r p' _ IH Hrun|p name r p' _ IH Hrun].
  - apply planner_of_rows_wf.
  - rewrite add_class_run in Hrun.
    destruct (list_mem name (classes p)); [injection Hrun as _ <-; exact IH|].
    destruct (forallb _ ts); [|injection Hrun as _ <-; exact IH].
    destruct (cr <=? 0); injection Hrun as _ <-; [exact IH|].
    simpl. destruct IH. split; apply dict_set_wf; assumption.
  - eapply remove_class_wf; eauto.
Qed.

(** * Further properties of the class *)

(** ** Reading the file *)

Lemma string_app_nil_r (s : string) : (s ++ "")%string = s.
Proof. induction s as [|c s IH]; simpl; congruence. Qed.

Lemma string_app_assoc (a b c : string) :
  ((a ++ b) ++ c)%string = (a ++ (b ++ c))%string.
Proof. induction a as [|x a IH]; simpl; congruence. Qed.

Lemma split_acc_cons (s acc : string) :
  exists x l, split_acc s acc = x :: l.
Proof.
  revert acc. induction s as [|c s IH]; intros acc; simpl; [eauto|].
  destruct s as [|c' s']; [eauto|].
  destruct (Ascii.eqb c "," && Ascii.eqb c' " ")%bool; [eauto|apply IH].
Qed.

Lemma split_acc_two (c c' : ascii) (s acc : string) :
  split_acc (String c (String c' s)) acc =
  if (Ascii.eqb c "," && Ascii.eqb c' " ")%bool
  then acc :: split_acc s EmptyString
  else split_acc (String c' s) (acc ++ String c EmptyString)%string.
Proof. reflexivity. Qed.

Lemma join_cons_cons (a x : string) (l : list string) :
  join_comma_space (a :: x :: l)
  = (a ++ ", " ++ join_comma_space (x :: l))%string.
Proof. reflexivity. Qed.

Lemma join_split_acc (n : nat) :
  forall s acc, (String.length s <= n)%nat ->
    join_comma_space (split_acc s acc) = (acc ++ s)%string.
Proof.
  induction n as [|n IH]; intros s acc Hlen.
  - destruct s; [|simpl in Hlen; lia]. simpl. now rewrite string_app_nil_r.
  - destruct s as [|c s]; [simpl; now rewrite string_app_nil_r|].
    destruct s as [|c' s'].
    + simpl. reflexivity.
    + rewrite split_acc_two.
      destruct (Ascii.eqb c "," && Ascii.eqb c' " ")%bool eqn:E.
      * apply andb_true_iff in E. destruct E as [E1 E2].
        apply Ascii.eqb_eq in E1, E2. subst c c'.
        destruct (split_acc_cons s' EmptyString) as (x & l & Hx).
        rewrite Hx, join_cons_cons, <- Hx.
        rewrite (IH s' EmptyString); [reflexivity|].
        cbn [String.length] in Hlen. lia.
      * rewrite (IH (String c' s')).
        -- rewrite string_app_assoc. reflexivity.
        -- cbn [String.length] in *. lia.
Qed.

(** X1.  Joining the pieces of [s.split(', ')] with [', '] gives [s] back:
    the split loses no character of a [Term] cell. *)
Theorem join_split_comma_space (s : string) :
  join_comma_space (split_comma_space s) = s.
Proof.
  unfold split_comma_space. now rewrite (join_split_acc (String.length s)).
Qed.

Lemma find_rev_snoc {A : Type} (f : A -> bool) (l : list A) (a : A) :
  find f (rev (l ++ [a])) = if f a then Some a else find f (rev l).
Proof. rewrite rev_app_distr. reflexivity. Qed.

(** X2.  After [__init__] the two lookups answer, for every name, with the
    cells of the last row of the file that carries the name (the [Term]
    cell split at [', ']), and raise [KeyError] for a name no row carries. *)
Theorem lookup_after_init (fname : string) (year : Z)
    (rs : list (string * string * Z)) (c : string) :
  get_class_terms (planner_of_rows fname year rs) c =
    match last_row c rs with
    | Some r => Ok (split_comma_space (snd (fst r)))
    | None => Raise (KeyError (KStr c))
    end /\
  get_class_credits (planner_of_rows fname year rs) c =
    match last_row c rs with
    | Some r => Ok (snd r)
    | None => Raise (KeyError (KStr c))
    end.
Proof.
  unfold last_row, get_class_terms, get_class_credits.
  induction rs as [|r rs IH] using rev_ind; [split; reflexivity|].
  rewrite planner_of_rows_snoc, find_rev_snoc. simpl.
  destruct (String.eqb_spec c (fst (fst r))) as [->|Hne].
  - rewrite !dict_get_set_eq. split; reflexivity.
  - rewrite !dict_get_set_neq by congruence. exact IH.
Qed.







(** ** Adding and removing *)

(** X5.  [add_class] and [remove_class], whether they succeed or fail, keep
    a planner consistent and without a repeated name. *)
Theorem mutations_keep_consistency (p : Planner) :
  well_kept p ->
  (forall class_name terms_ credits_ r p',
     add_class class_name terms_ credits_ p = (r, p') -> well_kept p') /\
  (forall class_name r p',
     remove_class class_name p = (r, p') -> well_kept p').
Proof.
  intros Hk. split.
  - intros n ts cr r p' Hrun. eapply add_class_kept; eauto.
  - intros n r p' Hrun. eapply remove_class_kept; eauto.
Qed.

Lemma planner_AB_kept : well_kept planner_AB.
Proof. apply planner_of_rows_kept. simpl. distinct_names. Defined.

Lemma mutations_keep_consistency_witness :
  well_kept (snd (add_class "C" ["W"] 4 planner_AB)) /\
  well_kept (snd (remove_class "A" planner_AB)).
Proof.
  destruct (mutations_keep_consistency planner_AB planner_AB_kept) as [Ha Hr].
  split.
  - apply (Ha "C" ["W"] 4 (fst (add_class "C" ["W"] 4 planner_AB))).
    apply surjective_pairing.
  - apply (Hr "A" (fst (remove_class "A" planner_AB))).
    apply surjective_pairing.
Defined.

Lemma sum_append (l l' : list Z) : sum (l ++ l') = sum l + sum l'.
Proof.
  induction l as [|x l IH]; simpl; [reflexivity|].
  rewrite !sum_cons, IH. lia.
Qed.

(** The run of [remove_class] on a well-kept planner that has the class. *)
Lemma remove_class_present (p : Planner) (class_name : string) :
  well_kept p -> In class_name (classes p) ->
  exists c1 c2 t1 tx t2 r1 rx r2 ct cc,
    classes p = c1 ++ class_name :: c2 /\
    terms p = t1 ++ tx :: t2 /\
    credits p = r1 ++ rx :: r2 /\
    ~ In class_name (c1 ++ c2) /\
    dict_pop (class_terms p) class_name = Some (tx, ct) /\
    dict_pop (class_credits p) class_name = Some (rx, cc) /\
    remove_class class_name p
    = (Ok tt, removed_class p (c1 ++ c2) (t1 ++ t2) (r1 ++ r2) ct cc).
Proof.
  intros ((Hlt & Hlc & Hkt & Hkc & Hidx) & Hnd & Hwt & Hwc) Hin.
  destruct (list_index_nth _ _ Hin) as (i & Hi & Hnth).
  assert (Hlen : (i < List.length (classes p))%nat).
  { apply nth_error_Some. congruence. }
  destruct (list_pop_Some (classes p) i Hlen) as [cs Hcs].
  destruct (list_pop_Some (terms p) i) as [ts Hts]; [lia|].
  destruct (list_pop_Some (credits p) i) as [crs Hcrs]; [lia|].
  destruct (dict_pop (class_terms p) class_name) as [[v ct]|] eqn:Hct.
  2:{ apply dict_pop_None, dict_get_None in Hct. rewrite Hkt in Hct.
      contradiction. }
  destruct (dict_pop (class_credits p) class_name) as [[w cc]|] eqn:Hcc.
  2:{ apply dict_pop_None, dict_get_None in Hcc. rewrite Hkc in Hcc.
      contradiction. }
  pose proof (remove_class_ok p class_name i cs ts crs v ct w cc
                Hin Hi Hcs Hts Hcrs Hct Hcc) as Hrun.
  destruct (list_pop_split _ _ _ Hcs) as (c1 & x & c2 & Ec & -> & Hc1).
  destruct (list_pop_split _ _ _ Hts) as (t1 & tx & t2 & Et & -> & Ht1).
  destruct (list_pop_split _ _ _ Hcrs) as (r1 & rx & r2 & Er & -> & Hr1).
  assert (x = class_name).
  { rewrite Ec, <- Hc1, nth_error_app2, Nat.sub_diag in Hnth by lia.
    simpl in Hnth. congruence. }
  subst x.
  destruct (Hidx i class_name Hnth) as [Hgt Hgc].
  apply dict_pop_get in Hct as Hct'. apply dict_pop_get in Hcc as Hcc'.
  assert (v = tx).
  { rewrite Hct', Et, <- Ht1, nth_error_app2, Nat.sub_diag in Hgt by lia.
    simpl in Hgt. congruence. }
  assert (w = rx).
  { rewrite Hcc', Er, <- Hr1, nth_error_app2, Nat.sub_diag in Hgc by lia.
    simpl in Hgc. congruence. }
  subst v w.
  exists c1, c2, t1, tx, t2, r1, rx, r2, ct, cc.
  repeat (split; [assumption|]). split; [|auto].
  rewrite Ec in Hnd. apply (NoDup_remove_2 _ _ _ Hnd).
Qed.

(** X6.  [remove_class] of a name that is not in [classes] raises
    [ValueError] and leaves the planner as it was.  On a consistent planner
    without a repeated name, removing a class that is there succeeds: the
    name is no longer in [classes], both lookups raise [KeyError] for it,
    the catalogue has one class less, and every other class is still there
    with the same terms and credits. *)
Theorem remove_class_removes (p : Planner) (class_name : string) :
  (~ In class_name (classes p) ->
   remove_class class_name p = (Raise (ValueError MSG_MISSING), p)) /\
  (well_kept p -> In class_name (classes p) ->
   exists p',
     remove_class class_name p = (Ok tt, p') /\
     ~ In class_name (classes p') /\
     S (List.length (classes p')) = List.length (classes p) /\
     get_class_terms p' class_name = Raise (KeyError (KStr class_name)) /\
     get_class_credits p' class_name = Raise (KeyError (KStr class_name)) /\
     forall c, c <> class_name ->
       (In c (classes p') <-> In c (classes p)) /\
       get_class_terms p' c = get_class_terms p c /\
       get_class_credits p' c = get_class_credits p c).
Proof.
  split; [apply remove_class_missing|].
  intros Hk Hin.
  destruct (remove_class_present p class_name Hk Hin)
    as (c1 & c2 & t1 & tx & t2 & r1 & rx & r2 & ct & cc &
        Ec & Et & Er & Hgone & Hct & Hcc & Hrun).
  destruct Hk as (_ & _ & Hwt & Hwc).
  destruct (dict_pop_wf _ _ _ _ Hct Hwt) as [_ Hnt].
  destruct (dict_pop_wf _ _ _ _ Hcc Hwc) as [_ Hnc].
  eexists. split; [exact Hrun|].
  unfold get_class_terms, get_class_credits. simpl.
  rewrite Hnt, Hnc, Ec, !length_app. simpl.
  split; [assumption|]. split; [lia|]. split; [reflexivity|].
  split; [reflexivity|]. intros c Hne.
  rewrite (dict_pop_get_neq _ _ _ _ _ Hct Hne).
  rewrite (dict_pop_get_neq _ _ _ _ _ Hcc Hne).
  split; [|auto]. rewrite !in_app_iff. simpl. intuition congruence.
Qed.

Lemma remove_class_removes_witness :
  remove_class "CS 999" planner_AB = (Raise (ValueError MSG_MISSING), planner_AB) /\
  exists p',
    remove_class "A" planner_AB = (Ok tt, p') /\
    get_class_terms p' "A" = Raise (KeyError (KStr "A")) /\
    get_class_terms p' "B" = get_class_terms planner_AB "B".
Proof.
  split.
  - apply (remove_class_removes planner_AB "CS 999").
    simpl. intros [H|[H|[]]]; discriminate.
  - destruct (remove_class_removes planner_AB "A") as [_ H].
    destruct (H planner_AB_kept) as (p' & Hrun & _ & _ & Ht & _ & Hother).
    + simpl. now left.
    + exists p'. split; [exact Hrun|]. split; [exact Ht|].
      apply Hother. discriminate.
Defined.

Lemma list_index_snoc (x : string) (l : list string) :
  ~ In x l -> list_index x (l ++ [x]) = Some (List.length l).
Proof.
  induction l as [|y l IH]; simpl; intros Hni.
  - now rewrite String.eqb_refl.
  - destruct (String.eqb_spec x y) as [->|Hne]; [tauto|].
    rewrite IH by tauto. reflexivity.
Qed.

Lemma list_pop_snoc {A : Type} (l : list A) (x : A) (n : nat) :
  n = List.length l -> list_pop (l ++ [x]) n = Some l.
Proof.
  intros ->. induction l as [|y l IH]; simpl; [reflexivity|].
  now rewrite IH.
Qed.

Lemma dict_pop_set_absent {V : Type} (d : Dict string V) k v :
  dict_get d k = None -> dict_pop (dict_set d k v) k = Some (v, d).
Proof.
  induction d as [|[k' v'] d IH]; simpl.
  - now rewrite String.eqb_refl.
  - destruct (String.eqb k k') eqn:E; [discriminate|]. simpl. rewrite E.
    intros H. now rewrite IH.
Qed.

(** X7.  On a consistent planner, removing a class that [add_class] has
    just added succeeds and gives back exactly the planner from before the
    addition. *)
Theorem remove_after_add (p p1 : Planner) (class_name : string)
    (terms_ : list string) (credits_ : Z) :
  consistent p ->
  add_class class_name terms_ credits_ p = (Ok tt, p1) ->
  remove_class class_name p1 = (Ok tt, p).
Proof.
  intros (Hlt & Hlc & Hkt & Hkc & _). rewrite add_class_run.
  destruct (list_mem class_name (classes p)) eqn:Hmem; [discriminate|].
  apply list_mem_not_In in Hmem.
  destruct (forallb _ terms_); [|discriminate].
  destruct (credits_ <=? 0); [discriminate|]. intros [= <-].
  assert (Hnt : dict_get (class_terms p) class_name = None).
  { apply dict_get_None. now rewrite Hkt. }
  assert (Hnc : dict_get (class_credits p) class_name = None).
  { apply dict_get_None. now rewrite Hkc. }
  rewrite (remove_class_ok (added_class p class_name terms_ credits_)
             class_name (List.length (classes p))
             (classes p) (terms p) (credits p)
             terms_ (class_terms p) credits_ (class_credits p)).
  - destruct p; reflexivity.
  - simpl. apply in_or_app. right. now left.
  - simpl. now apply list_index_snoc.
  - simpl. now apply list_pop_snoc.
  - simpl. apply list_pop_snoc. congruence.
  - simpl. apply list_pop_snoc. congruence.
  - simpl. now apply dict_pop_set_absent.
  - simpl. now apply dict_pop_set_absent.
Qed.

Lemma remove_after_add_witness :
  remove_class "C" (snd (add_class "C" ["W"; "S"] 4 planner_AB))
  = (Ok tt, planner_AB).
Proof.
  apply (remove_after_add planner_AB _ "C" ["W"; "S"] 4).
  - apply planner_AB_kept.
  - vm_compute. reflexivity.
Defined.

(** X8.  A successful [add_class] raises [get_total_credits] by the credits
    of the new class; on a consistent planner without a repeated name a
    successful [remove_class] lowers it by the credits that
    [get_class_credits] gave for the class. *)
Theorem total_credits_follows (p p' : Planner) (class_name : string) :
  (forall terms_ credits_,
     add_class class_name terms_ credits_ p = (Ok tt, p') ->
     get_total_credits p' = get_total_credits p + credits_) /\
  (well_kept p ->
   remove_class class_name p = (Ok tt, p') ->
   exists cr, get_class_credits p class_name = Ok cr /\
              get_total_credits p' = get_total_credits p - cr).
Proof.
  split.
  - intros ts cr. rewrite add_class_run.
    destruct (list_mem class_name (classes p)); [discriminate|].
    destruct (forallb _ ts); [|discriminate].
    destruct (cr <=? 0); [discriminate|]. intros [= <-].
    unfold get_total_credits. cbn [credits added_class].
    rewrite sum_append, sum_cons. change (sum []) with 0. lia.
  - intros Hk Hrun.
    destruct (in_dec string_dec class_name (classes p)) as [Hin|Hout].
    2:{ rewrite remove_class_missing in Hrun by assumption. discriminate. }
    destruct (remove_class_present p class_name Hk Hin)
      as (c1 & c2 & t1 & tx & t2 & r1 & rx & r2 & ct & cc &
          Ec & Et & Er & Hgone & Hct & Hcc & Hrun').
    rewrite Hrun' in Hrun. injection Hrun as <-.
    exists rx. unfold get_class_credits, get_total_credits.
    rewrite (dict_pop_get _ _ _ _ Hcc). split; [reflexivity|].
    cbn [credits removed_class]. rewrite Er, !sum_append, sum_cons. lia.
Qed.

Lemma total_credits_follows_witness :
  get_total_credits (snd (add_class "C" ["W"] 4 planner_AB)) = 22 + 4 /\
  exists cr, get_class_credits planner_AB "A" = Ok cr /\
    get_total_credits (snd (remove_class "A" planner_AB)) = 22 - cr.
Proof.
  split.
  - apply (proj1 (total_credits_follows planner_AB
                    (snd (add_class "C" ["W"] 4 planner_AB)) "C") ["W"] 4).
    vm_compute. reflexivity.
  - apply (proj2 (total_credits_follows planner_AB
                    (snd (remove_class "A" planner_AB)) "A")).
    + apply planner_AB_kept.
    + vm_compute. reflexivity.
Defined.

Lemma dict_set_entries {K V : Type} {HK : Key K} (d : Dict K V) k v k' v' :
  In (k', v') (dict_set d k v) -> In (k', v') d \/ (k' = k /\ v' = v).
Proof.
  induction d as [|[k0 v0] d IH]; simpl.
  - intros [[= <- <-]|[]]. auto.
  - destruct (key_eqb k k0) eqn:E; simpl.
    + apply key_eqb_eq in E. subst k0. intros [[= <- <-]|H]; auto.
    + intros [H|H]; auto. apply IH in H. tauto.
Qed.

Lemma remove_class_incl (p p' : Planner) class_name r :
  remove_class class_name p = (r, p') ->
  incl (class_terms p') (class_terms p) /\
  incl (class_credits p') (class_credits p).
Proof.
  assert (Hrefl : incl (class_terms p) (class_terms p) /\
                  incl (class_credits p) (class_credits p))
    by (split; apply incl_refl).
  unfold remove_class, bind, gets, raise_if, raise, ret.
  destruct (negb (list_mem class_name (classes p)));
    [intros [= _ <-]; auto|].
  destruct (list_index class_name (classes p)) as [i|];
    [|intros [= _ <-]; auto].
  unfold pop_at, pop_key, bind, gets, modify, raise. simpl.
  destruct (list_pop (classes p) i); [|intros [= _ <-]; auto]. simpl.
  destruct (list_pop (terms p) i); [|intros [= _ <-]; auto]. simpl.
  destruct (list_pop (credits p) i); [|intros [= _ <-]; auto]. simpl.
  destruct (dict_pop (class_terms p) class_name) as [[v ct]|] eqn:Hct;
    [|intros [= _ <-]; auto]. simpl.
  pose proof (dict_pop_incl _ _ _ _ Hct) as Hit.
  destruct (dict_pop (class_credits p) class_name) as [[w cc]|] eqn:Hcc;
    [|intros [= _ <-]; simpl; split; [assumption|apply incl_refl]]. simpl.
  pose proof (dict_pop_incl _ _ _ _ Hcc) as Hic.
  intros [= _ <-]. auto.
Qed.

(** X9.  If every term stored in [class_terms] is one of F, W, S and every
    credit stored in [class_credits] is positive, the same holds after any
    call of [add_class] or [remove_class], successful or failed: the two
    methods never store a term outside F, W, S or a credit that is not
    positive. *)
Theorem mutations_keep_attributes_valid (p : Planner) :
  valid_attributes p ->
  (forall class_name terms_ credits_ r p',
     add_class class_name terms_ credits_ p = (r, p') ->
     valid_attributes p') /\
  (forall class_name r p',
     remove_class class_name p = (r, p') -> valid_attributes p').
Proof.
  intros [Ht Hc]. split.
  - intros n ts cr r p'. rewrite add_class_run.
    destruct (list_mem n (classes p)); [intros [= _ <-]; split; assumption|].
    destruct (forallb (fun t => list_mem t VALID_TERMS) ts) eqn:Hall;
      [|intros [= _ <-]; split; assumption].
    destruct (Z.leb_spec cr 0) as [Hle|Hpos];
      intros [= _ <-]; [split; assumption|].
    split; cbn [class_terms class_credits added_class].
    + intros c ts' Hin. apply dict_set_entries in Hin.
      destruct Hin as [Hin|[_ ->]]; [eapply Ht; eauto|].
      intros t Hin. rewrite forallb_forall in Hall.
      apply list_mem_In. auto.
    + intros c v Hin. apply dict_set_entries in Hin.
      destruct Hin as [Hin|[_ ->]]; [eapply Hc; eauto | assumption].
  - intros n r p' Hrun. destruct (remove_class_incl _ _ _ _ Hrun) as [Hit Hic].
    split.
    + intros c ts Hin. apply (Ht c ts). auto.
    + intros c v Hin. apply (Hc c v). auto.
Qed.

Lemma planner_AB_valid : valid_attributes planner_AB.
Proof.
  split; simpl.
  - intros c ts [[= <- <-]|[[= <- <-]|[]]] t [<-|[]]; simpl; auto.
  - intros c v [[= <- <-]|[[= <- <-]|[]]]; lia.
Defined.

Lemma mutations_keep_attributes_valid_witness :
  valid_attributes (snd (add_class "C" ["W"] 4 planner_AB)) /\
  valid_attributes (snd (remove_class "A" planner_AB)).
Proof.
  destruct (mutations_keep_attributes_valid planner_AB planner_AB_valid)
    as [Ha Hr].
  split.
  - apply (Ha "C" ["W"] 4 (fst (add_class "C" ["W"] 4 planner_AB))).
    apply surjective_pairing.
  - apply (Hr "A" (fst (remove_class "A" planner_AB))).
    apply surjective_pairing.
Defined.

(** ** More on the schedule that [create_schedule] returns *)

(** X10.  A schedule that is returned has exactly the four years from
    [start_year] as keys, in ascending order, and each year holds exactly
    the three slots F, W, S, in this order. *)
Theorem schedule_has_four_years (self : Planner) (s : Schedule)
    (out : list Output) :
  run_create_schedule self = (Ok s, out) ->
  dict_keys s = [start_year self; start_year self + 1;
                 start_year self + 2; start_year self + 3] /\
  Forall (fun e => dict_keys (snd e) = ["F"; "W"; "S"]) s.
Proof.
  intros Hrun. destruct (run_sched_inv _ _ _ Hrun) as (g & -> & Hinv).
  pose proof (si_keys _ _ _ Hinv) as Hkeys. split; [exact Hkeys|].
  apply Forall_forall. intros [y ys] Hin. simpl.
  assert (Hget : dict_get (schedule g) y = Some ys).
  { apply In_dict_get; [|assumption]. unfold dict_wf. rewrite Hkeys.
    apply years_of_NoDup. }
  destruct (si_years _ _ _ Hinv _ _ Hget) as (cp & added & _ & Hok).
  apply (yo_keys _ _ _ _ Hok).
Qed.

Lemma schedule_has_four_years_witness :
  dict_keys schedule_AB = [22; 23; 24; 25] /\
  Forall (fun e => dict_keys (snd e) = ["F"; "W"; "S"]) schedule_AB.
Proof.
  apply (schedule_has_four_years planner_AB schedule_AB output_AB).
  reflexivity.
Defined.

(** X11.  In a schedule that is returned no class is in two slots: two
    slots that hold the same class are the same year and the same term. *)
Theorem placed_at_most_once (self : Planner) (s : Schedule)
    (out : list Output) :
  dict_wf (class_terms self) ->
  run_create_schedule self = (Ok s, out) ->
  forall c year1 term1 year2 term2,
    placed_at s year1 term1 c -> placed_at s year2 term2 c ->
    year1 = year2 /\ term1 = term2.
Proof.
  intros Hwf Hrun.
  destruct (run_part_inv _ _ _ Hwf Hrun) as (g & -> & _ & Hpart).
  apply (pi_once _ _ Hpart).
Qed.

Lemma placed_at_most_once_witness : 23 = 23 /\ "F" = "F".
Proof.
  apply (placed_at_most_once planner_AB schedule_AB output_AB) with (c := "B").
  - unfold dict_wf. simpl. distinct_names.
  - reflexivity.
  - exists [("B", 4)], 4. split; reflexivity.
  - exists [("B", 4)], 4. split; reflexivity.
Defined.

(** X12.  In a schedule that is returned the credits stored with a class in
    a slot are the credits [get_class_credits] gives for the class. *)
Theorem slot_keeps_class_credits (self : Planner) (s : Schedule)
    (out : list Output) :
  run_create_schedule self = (Ok s, out) ->
  forall year term slot c v,
    slot_of s year term = Some slot -> dict_get slot c = Some v ->
    get_class_credits self c = Ok v.
Proof.
  intros Hrun year term slot c v Hslot Hv.
  destruct (run_sched_inv _ _ _ Hrun) as (g & -> & Hinv).
  unfold slot_of in Hslot.
  destruct (dict_get (schedule g) year) as [ys|] eqn:Hy; [|discriminate].
  destruct (si_years _ _ _ Hinv _ _ Hy) as (cp & added & _ & Hok).
  destruct (yo_val _ _ _ _ Hok _ _ _ _ Hslot Hv) as (Hcr & _).
  unfold get_class_credits. now rewrite Hcr.
Qed.

Lemma slot_keeps_class_credits_witness :
  get_class_credits planner_AB "A" = Ok 18.
Proof.
  apply (slot_keeps_class_credits planner_AB schedule_AB output_AB eq_refl
           22 "F" [("A", 18)] "A" 18); reflexivity.
Defined.

(** ** A term that is not F, W or S *)

Lemma post_conj {S A : Type} (m : Py S A) s (Q1 Q2 : A -> S -> Prop)
    (E1 E2 : Exn -> S -> Prop) :
  post m s Q1 E1 -> post m s Q2 E2 ->
  post m s (fun a s' => Q1 a s' /\ Q2 a s') (fun e s' => E1 e s' /\ E2 e s').
Proof. unfold post. destruct (m s) as [[a|e] s']; auto. Qed.

Lemma post_raises {S A : Type} (m : Py S A) s (E : Exn -> S -> Prop) :
  post m s (fun _ _ => False) E -> exists e s', m s = (Raise e, s') /\ E e s'.
Proof.
  unfold post. destruct (m s) as [[a|e] s']; [contradiction|eauto].
Qed.

Lemma place_key_error self year c term f :
  post (place self year c term) f (fun _ _ => True) key_error.
Proof.
  unfold post, key_error. rewrite place_run.
  destruct (dict_get (schedule f) year) as [ys|]; [|eauto].
  destruct (dict_get ys term) as [slot|]; [|eauto].
  destruct (dict_get (class_credits self) c) as [cr|]; [|eauto].
  destruct (sum (dict_values slot) + cr <=? MAX_CREDS); exact I.
Qed.

Lemma place_placing self year sched0 copy out c ts term f :
  In (c, ts) copy -> In term ts ->
  placing self year sched0 copy out f ->
  post (place self year c term) f
    (fun _ f' => placing self year sched0 copy out f') key_error.
Proof.
  intros Hc Ht Hp.
  eapply post_weaken;
    [apply (post_conj _ _ _ _ _ _
              (place_post self year sched0 copy out c ts term f Hc Ht Hp)
              (place_key_error self year c term f)) | |].
  - intros a f' [H _]. exact H.
  - intros e f' [_ H]. exact H.
Qed.

Lemma place_bad_term self year sched0 copy out c term f :
  placing self year sched0 copy out f -> ~ In term VALID_TERMS ->
  post (place self year c term) f (fun _ _ => False) key_error.
Proof.
  intros (_ & _ & ys & Hs & Hok) Hbad.
  unfold post, key_error. rewrite place_run, Hs, dict_get_set_eq.
  assert (Hnone : dict_get ys term = None).
  { apply dict_get_None. now rewrite (yo_keys _ _ _ _ Hok). }
  rewrite Hnone. eauto.
Qed.

Lemma placing_loops_bad_term self year sched0 copy out c ts term f :
  In (c, ts) copy -> In term ts -> ~ In term VALID_TERMS ->
  placing self year sched0 copy out f ->
  post (for_ copy (fun item =>
          for_ (snd item) (fun t => place self year (fst item) t))) f
    (fun _ _ => False) key_error.
Proof.
  intros Hc Ht Hbad Hp.
  set (P := placing self year sched0 copy out).
  eapply post_weaken with
    (Q := fun _ g => P g /\ ~ In (c, ts) copy) (E := key_error);
    [| |auto].
  - apply (post_for copy _ (fun done g => P g /\ ~ In (c, ts) done));
      [|split; [assumption | intros []]].
    intros done [c' ts'] todo g Hitems [HP Hdone]. simpl.
    assert (Hin' : In (c', ts') copy).
    { rewrite Hitems. apply in_or_app. right. now left. }
    destruct (string_dec c' c) as [->|Hnc].
    + destruct (list_eq_dec string_dec ts' ts) as [->|Hnt].
      * (* the class with the bad term *)
        eapply post_weaken with (Q := fun _ g' => P g' /\ ~ In term ts)
                                (E := key_error); [| |auto].
        -- apply (post_for ts _ (fun done' g' => P g' /\ ~ In term done'));
             [|split; [assumption | intros []]].
           intros done' u todo' g' Hts [HP' Hdone'].
           destruct (string_dec u term) as [->|Hnu].
           ++ eapply post_weaken;
                [apply (place_bad_term self year sched0 copy out c term g' HP' Hbad)| |auto].
              intros a g'' [].
           ++ eapply post_weaken;
                [apply (place_placing self year sched0 copy out c ts u g' Hin')| |auto].
              ** rewrite Hts. apply in_or_app. right. now left.
              ** exact HP'.
              ** intros a g'' HP''. split; [exact HP''|].
                 rewrite in_app_iff. simpl. intuition congruence.
        -- intros a g' [_ Hno]. contradiction.
      * eapply post_weaken with (Q := fun _ g' => P g') (E := key_error);
          [| |auto].
        -- apply (post_for ts' _ (fun _ g' => P g')); [|assumption].
           intros done' u todo' g' Hts HP'.
           apply (place_placing self year sched0 copy out c ts' u g' Hin'); [|exact HP'].
           rewrite Hts. apply in_or_app. right. now left.
        -- intros a g' HP'. split; [exact HP'|].
           rewrite in_app_iff. simpl. intros [H|[[= E]|[]]]; auto.
    + eapply post_weaken with (Q := fun _ g' => P g') (E := key_error);
          [| |auto].
      * apply (post_for ts' _ (fun _ g' => P g')); [|assumption].
        intros done' u todo' g' Hts HP'.
        apply (place_placing self year sched0 copy out c' ts' u g' Hin'); [|exact HP'].
        rewrite Hts. apply in_or_app. right. now left.
      * intros a g' HP'. split; [exact HP'|].
        rewrite in_app_iff. simpl. intros [H|[[= E _]|[]]]; auto.
  - intros a g [_ Hno]. contradiction.
Qed.

Lemma year_pass_bad_term self year c ts term f :
  In (c, ts) (class_terms_copy f) -> In term ts -> ~ In term VALID_TERMS ->
  post (year_pass self year) f (fun _ _ => False) key_error.
Proof.
  intros Hc Ht Hbad. unfold year_pass.
  apply post_bind. unfold post at 1, modify.
  apply post_bind. unfold post at 1, modify.
  apply post_bind. unfold post at 1, gets. simpl.
  apply post_bind.
  eapply post_weaken;
    [apply (placing_loops_bad_term self year (schedule f)
              (class_terms_copy f) (stdout f) c ts term); auto
    | intros a g [] | auto].
  split; [reflexivity|]. split; [reflexivity|].
  exists empty_year. split; [reflexivity|]. apply year_ok_empty.
Qed.

(** X13.  If some class of the catalogue carries a term that is not F, W
    or S (as a file can give it, since [__init__] does not check terms),
    [create_schedule] returns no schedule: it raises [KeyError]. *)
Theorem create_schedule_bad_term (self : Planner) (c : string)
    (ts : list string) (term : string) :
  In (c, ts) (class_terms self) -> In term ts -> ~ In term VALID_TERMS ->
  exists k, fst (run_create_schedule self) = Raise (KeyError k).
Proof.
  intros Hc Ht Hbad.
  assert (H : post (create_schedule self) fresh (fun _ _ => False) key_error).
  { unfold create_schedule.
    destruct (quota_check_run self fresh) as (f1 & Hq & _ & _).
    apply post_bind. unfold post at 1. rewrite Hq.
    apply post_bind. unfold post at 1, modify.
    apply post_bind. unfold post at 1, modify.
    apply post_bind. unfold post at 1, modify.
    apply post_bind. unfold years_of. cbn [for_]. apply post_bind.
    eapply post_weaken;
      [apply (year_pass_bad_term self _ c ts term); auto
      | intros a g [] | auto]. }
  apply post_raises in H. destruct H as (e & f' & Hrun & k & ->).
  exists k. unfold run_create_schedule. now rewrite Hrun.
Qed.

Lemma create_schedule_bad_term_witness :
  exists k, fst (run_create_schedule planner_bad_term) = Raise (KeyError k).
Proof.
  apply (create_schedule_bad_term planner_bad_term "B" ["F,W"] "F,W").
  - simpl. right. now left.
  - now left.
  - simpl. intros [H|[H|[H|[]]]]; discriminate.
Defined.

(** ** Catalogues on which [create_schedule] returns *)

Lemma post_returns {S A : Type} (m : Py S A) s (Q : A -> S -> Prop) :
  post m s Q (fun _ _ => False) -> exists a s', m s = (Ok a, s') /\ Q a s'.
Proof.
  unfold post. destruct (m s) as [[a|e] s']; [eauto|contradiction].
Qed.

Lemma pop_all_exists {V : Type} (d : Dict string V) (l : list string) :
  dict_wf d -> NoDup l -> incl l (dict_keys d) ->
  exists d', pop_all d l = Some d'.
Proof.
  revert d. induction l as [|x l IH]; intros d Hwf Hnd Hincl; simpl; [eauto|].
  inversion Hnd as [|? ? Hx Hnd']; subst.
  destruct (dict_pop d x) as [[w d1]|] eqn:E.
  - destruct (dict_pop_wf _ _ _ _ E Hwf) as [Hwf1 _].
    apply IH; [assumption|assumption|].
    intros k Hk. assert (Hne : k <> x) by (intros ->; contradiction).
    assert (Hkd : In k (dict_keys d)) by (apply Hincl; now right).
    apply dict_key_get in Hkd. destruct Hkd as [u Hu].
    rewrite <- (dict_pop_get_neq _ _ _ _ _ E Hne) in Hu.
    eapply dict_get_key; eauto.
  - apply dict_pop_None, dict_get_None in E. exfalso. apply E, Hincl.
    now left.
Qed.

Lemma forget_loop_returns (added l : list string) (f : Frame) d' :
  pop_all (class_terms_copy f) l = Some d' ->
  post (for_ l (forget added)) f
    (fun _ f' => class_terms_copy f' = d') (fun _ _ => False).
Proof.
  revert f. induction l as [|x l IH]; intros f; simpl.
  - intros [= <-]. reflexivity.
  - destruct (dict_pop (class_terms_copy f) x) as [[w d1]|] eqn:E;
      [|discriminate].
    intros Hpop. apply post_bind. unfold post at 1. rewrite forget_run, E.
    apply IH. exact Hpop.
Qed.

Lemma single_term_item self year sched0 copy out c ts f :
  In (c, ts) copy -> single_term self c ts ->
  placing self year sched0 copy out f ->
  post (for_ ts (fun t => place self year c t)) f
    (fun _ f' => placing self year sched0 copy out f' /\
                 (classes_added f' = classes_added f \/
                  classes_added f' = classes_added f ++ [c]))
    (fun _ _ => False).
Proof.
  intros Hc (Hlen & Hvalid & v & Hv) Hp.
  destruct ts as [|t [|t' ts]]; [| |simpl in Hlen; lia].
  - simpl. unfold post, ret. auto.
  - cbn [for_]. apply post_bind.
    pose proof (place_post self year sched0 copy out c [t] t f Hc
                  (or_introl eq_refl) Hp) as Hpost.
    destruct Hp as (_ & _ & ys & Hs & Hok).
    assert (Hslot : exists slot, dict_get ys t = Some slot).
    { apply dict_key_get. rewrite (yo_keys _ _ _ _ Hok). apply Hvalid.
      now left. }
    destruct Hslot as [slot Hslot].
    unfold post in *. rewrite place_run in *.
    rewrite Hs, dict_get_set_eq, Hslot, Hv in *.
    destruct (sum (dict_values slot) + v <=? MAX_CREDS); unfold ret; simpl;
      auto.
Qed.

Lemma single_term_year self year f :
  dict_wf (class_terms_copy f) ->
  (forall c ts, In (c, ts) (class_terms_copy f) -> single_term self c ts) ->
  post (year_pass self year) f
    (fun _ f' => dict_wf (class_terms_copy f') /\
                 incl (class_terms_copy f') (class_terms_copy f))
    (fun _ _ => False).
Proof.
  intros Hwf Hsingle. unfold year_pass.
  apply post_bind. unfold post at 1, modify.
  apply post_bind. unfold post at 1, modify.
  apply post_bind. unfold post at 1, gets. simpl.
  set (copy := class_terms_copy f).
  set (P := placing self year (schedule f) copy (stdout f)).
  apply post_bind.
  eapply post_weaken with
    (Q := fun _ g => P g /\ NoDup (classes_added g) /\
                     incl (classes_added g) (map fst copy))
    (E := fun _ _ => False); [| |auto].
  - apply (post_for copy _
      (fun done g => P g /\ NoDup (classes_added g) /\
                     incl (classes_added g) (map fst done))).
    + intros done [c ts] todo g Hitems (HP & Hnd & Hincl). simpl.
      assert (Hin : In (c, ts) copy).
      { rewrite Hitems. apply in_or_app. right. now left. }
      assert (Hfresh : ~ In c (classes_added g)).
      { intros Ha. apply Hincl in Ha.
        unfold dict_wf, dict_keys in Hwf. fold copy in Hwf.
        rewrite Hitems, map_app in Hwf. simpl in Hwf.
        apply NoDup_remove_2 in Hwf. apply Hwf. apply in_or_app. now left. }
      eapply post_weaken;
        [apply (single_term_item self year (schedule f) copy (stdout f)
                  c ts g Hin (Hsingle c ts Hin) HP) | |auto].
      intros a g' (HP' & [Ha|Ha]); rewrite Ha, map_app; simpl.
      * split; [assumption|]. split; [assumption|].
        intros k Hk. apply in_or_app. left. auto.
      * split; [assumption|]. split.
        -- apply NoDup_app; auto.
           ++ constructor; [tauto|constructor].
           ++ intros k Hk [<-|[]]. contradiction.
        -- intros k Hk. apply in_app_or in Hk. apply in_or_app.
           destruct Hk as [Hk|Hk]; [left; auto | right; exact Hk].
    + split; [|split; [constructor | intros k []]].
      split; [reflexivity|]. split; [reflexivity|].
      exists empty_year. split; [reflexivity|]. apply year_ok_empty.
  - intros a g ((Hcopy & _) & Hnd & Hincl).
    apply post_bind. unfold post at 1, gets.
    destruct (pop_all_exists (class_terms_copy g) (classes_added g))
      as [d' Hpop]; [rewrite Hcopy; exact Hwf | exact Hnd
                    | rewrite Hcopy; exact Hincl |].
    eapply post_weaken; [apply (forget_loop_returns _ _ _ _ Hpop)| |auto].
    intros b g' Hd. simpl in Hd. rewrite Hd. rewrite Hcopy in Hpop. split.
    + apply (pop_all_wf _ _ _ Hpop Hwf).
    + eapply pop_all_incl; eauto.
Qed.

(** X14.  [create_schedule] returns a schedule whenever every class of the
    catalogue is offered in at most one term, that term is F, W or S, and
    the class has an entry in [class_credits]. *)
Theorem create_schedule_returns (self : Planner) :
  dict_wf (class_terms self) ->
  (forall c ts, In (c, ts) (class_terms self) -> single_term self c ts) ->
  exists s out, run_create_schedule self = (Ok s, out).
Proof.
  intros Hwf Hsingle.
  assert (H : post (create_schedule self) fresh (fun _ _ => True)
                (fun _ _ => False)).
  { unfold create_schedule.
    destruct (quota_check_run self fresh) as (f1 & Hq & _ & _).
    apply post_bind. unfold post at 1. rewrite Hq.
    apply post_bind. unfold post at 1, modify.
    apply post_bind. unfold post at 1, modify.
    apply post_bind. unfold post at 1, modify.
    apply post_bind.
    eapply post_weaken with
      (Q := fun _ g => True) (E := fun _ _ => False); [| |auto].
    - eapply post_weaken;
        [apply (post_for (years_of self) (year_pass self)
                  (fun _ g => dict_wf (class_terms_copy g) /\
                              incl (class_terms_copy g) (class_terms self))
                  (fun _ _ => False)) | auto | auto].
      + intros done year todo g _ [Hw Hi].
        eapply post_weaken; [apply (single_term_year self year g Hw)| |auto].
        * intros c ts Hin. apply Hsingle, Hi, Hin.
        * intros a g' [Hw' Hi']. split; [assumption|].
          eapply incl_tran; eauto.
      + simpl. split; [assumption | apply incl_refl].
    - intros a g _. apply post_bind. unfold post at 1, gets.
      apply post_bind.
      destruct (0 <? Z.of_nat (List.length (class_terms_copy g)));
        unfold post, print, modify, ret, gets; exact I. }
  apply post_returns in H. destruct H as (s & f' & Hrun & _).
  exists s, (stdout f'). unfold run_create_schedule. now rewrite Hrun.
Qed.

Lemma create_schedule_returns_witness :
  exists s out, run_create_schedule planner_AB = (Ok s, out).
Proof.
  apply (create_schedule_returns planner_AB).
  - unfold dict_wf. simpl. distinct_names.
  - simpl. intros c ts [[= <- <-]|[[= <- <-]|[]]]; unfold single_term; simpl.
    + split; [lia|]. split; [intros t [<-|[]]; auto | eauto].
    + split; [lia|]. split; [intros t [<-|[]]; auto | eauto].
Defined.

(** ** A class of more than 18 credits *)

(** The schedule is only changed by opening an empty year and by a guarded
    assignment to a slot: what both keep holds of the schedule at every
    outcome. *)
Section ScheduleInvariant.
Variable self : Planner.
Variable P : Schedule -> Prop.
Hypothesis P_empty : P [].
Hypothesis P_year : forall s y, P s -> P (dict_set s y empty_year).
Hypothesis P_place : forall s y ys t slot c cr,
  P s -> dict_get s y = Some ys -> dict_get ys t = Some slot ->
  dict_get (class_credits self) c = Some cr ->
  sum (dict_values slot) + cr <= MAX_CREDS ->
  P (dict_set s y (dict_set ys t (dict_set slot c cr))).

Let Pf (f : Frame) : Prop := P (schedule f).

Lemma place_keeps year c term f :
  Pf f -> post (place self year c term) f (fun _ => Pf) (fun _ => Pf).
Proof.
  intros HP. unfold post. rewrite place_run.
  destruct (dict_get (schedule f) year) as [ys|] eqn:Hy; [|exact HP].
  destruct (dict_get ys term) as [slot|] eqn:Ht; [|exact HP].
  destruct (dict_get (class_credits self) c) as [cr|] eqn:Hc; [|exact HP].
  destruct (Z.leb_spec (sum (dict_values slot) + cr) MAX_CREDS); [|exact HP].
  unfold Pf. simpl. eapply P_place; eauto.
Qed.

Lemma year_pass_keeps year f :
  Pf f -> post (year_pass self year) f (fun _ => Pf) (fun _ => Pf).
Proof.
  intros HP. unfold year_pass.
  apply post_bind. unfold post at 1, modify.
  apply post_bind. unfold post at 1, modify.
  apply post_bind. unfold post at 1, gets.
  apply post_bind.
  eapply post_weaken with (Q := fun _ => Pf) (E := fun _ => Pf); [| |auto].
  - apply (post_for _ _ (fun _ => Pf)); [|apply P_year, HP].
    intros done item todo g _ Hg.
    apply (post_for _ _ (fun _ => Pf)); [|exact Hg].
    intros done' term todo' g' _ Hg'. now apply place_keeps.
  - intros a g Hg. apply post_bind. unfold post at 1, gets.
    apply (post_for _ _ (fun _ => Pf)); [|exact Hg].
    intros done c todo g' _ Hg'. unfold post. rewrite forget_run.
    destruct (dict_pop (class_terms_copy g') c) as [[v d]|]; exact Hg'.
Qed.

Lemma create_schedule_keeps f :
  post (create_schedule self) f (fun s _ => P s) (fun _ => Pf).
Proof.
  unfold create_schedule.
  destruct (quota_check_run self f) as (f1 & Hq & _ & _).
  apply post_bind. unfold post at 1. rewrite Hq.
  apply post_bind. unfold post at 1, modify.
  apply post_bind. unfold post at 1, modify.
  apply post_bind. unfold post at 1, modify.
  apply post_bind.
  eapply post_weaken with (Q := fun _ => Pf) (E := fun _ => Pf); [| |auto].
  - apply (post_for _ _ (fun _ => Pf)); [|exact P_empty].
    intros done year todo g _ Hg. now apply year_pass_keeps.
  - intros a g Hg. apply post_bind. unfold post at 1, gets.
    apply post_bind.
    destruct (0 <? Z.of_nat (List.length (class_terms_copy g)));
      unfold post, print, modify, ret, gets; exact Hg.
Qed.
End ScheduleInvariant.

Lemma entries_from_catalogue_kept (self : Planner) (f : Frame) :
  post (create_schedule self) f
    (fun s _ => entries_from_catalogue self s)
    (fun _ f' => entries_from_catalogue self (schedule f')).
Proof.
  apply create_schedule_keeps.
  - intros y ys t slot k v. discriminate.
  - intros s y0 HP y ys t slot k v.
    destruct (Z.eq_dec y0 y) as [<-|Hne].
    + rewrite dict_get_set_eq. intros [= <-]. simpl.
      destruct (String.eqb t "F"); [intros [= <-] []|].
      destruct (String.eqb t "W"); [intros [= <-] []|].
      destruct (String.eqb t "S"); [intros [= <-] []|discriminate].
    + rewrite dict_get_set_neq by assumption. apply HP.
  - intros s y0 ys0 t0 slot0 c cr HP Hy Ht Hc _ y ys t slot k v.
    destruct (Z.eq_dec y0 y) as [<-|Hne].
    + rewrite dict_get_set_eq. intros [= <-].
      destruct (string_dec t0 t) as [<-|Hnt].
      * rewrite dict_get_set_eq. intros [= <-] Hin.
        apply dict_set_entries in Hin.
        destruct Hin as [Hin|[-> ->]]; [|assumption].
        eapply HP; eauto.
      * rewrite dict_get_set_neq by assumption. intros Ht' Hin.
        eapply HP; eauto.
    + rewrite dict_get_set_neq by assumption. apply HP.
Qed.

Lemma le_sum_nonneg (l : list Z) (v : Z) :
  (forall x, In x l -> 0 <= x) -> In v l -> v <= sum l.
Proof.
  induction l as [|x l IH]; simpl; [tauto|]. intros Hpos Hin.
  rewrite sum_cons.
  assert (Hl : 0 <= sum l).
  { clear IH Hin. induction l as [|y l IHl]; [unfold sum; simpl; lia|].
    rewrite sum_cons.
    assert (0 <= y) by (apply Hpos; right; now left).
    assert (0 <= sum l).
    { apply IHl. intros z [Hz|Hz]; apply Hpos; [now left|right; now right]. }
    lia. }
  destruct Hin as [->|Hin].
  - lia.
  - assert (0 <= x) by (apply Hpos; now left).
    assert (v <= sum l) by (apply IH; auto). lia.
Qed.

(** X15.  When no class of the catalogue has negative credits, a class of
    more than 18 credits is in no slot of a schedule that is returned; if
    it is a key of [class_terms], it is reported as remaining. *)
Theorem oversized_class_remains (self : Planner) (s : Schedule)
    (out : list Output) (c : string) (v : Z) :
  (forall k w, dict_get (class_credits self) k = Some w -> 0 <= w) ->
  run_create_schedule self = (Ok s, out) ->
  get_class_credits self c = Ok v -> MAX_CREDS < v ->
  ~ placed s c /\
  (dict_wf (class_terms self) -> In c (dict_keys (class_terms self)) ->
   In c (unplaced out)).
Proof.
  intros Hpos Hrun Hv Hbig.
  assert (Hno : ~ placed s c).
  { intros (y & t & slot & v' & Hslot & Hget).
    pose proof (entries_from_catalogue_kept self fresh) as He.
    unfold run_create_schedule in Hrun. unfold post in He.
    destruct (create_schedule self fresh) as [[s'|e] f'] eqn:Hcs;
      [|discriminate].
    injection Hrun as -> <-.
    assert (Hrun' : run_create_schedule self = (Ok s, stdout f')).
    { unfold run_create_schedule. now rewrite Hcs. }
    destruct (run_sched_inv _ _ _ Hrun') as (g & Hs & Hinv).
    unfold slot_of in Hslot.
    destruct (dict_get s y) as [ys|] eqn:Hy; [|discriminate].
    assert (Hsum : sum (dict_values slot) <= MAX_CREDS).
    { rewrite Hs in Hy.
      destruct (si_years _ _ _ Hinv _ _ Hy) as (cp & added & _ & Hok).
      apply (yo_sum _ _ _ _ Hok _ _ Hslot). }
    assert (Hv' : dict_get (class_credits self) c = Some v').
    { apply (He y ys t slot c v' Hy Hslot). now apply dict_get_In. }
    unfold get_class_credits in Hv. rewrite Hv' in Hv. injection Hv as ->.
    assert (v <= sum (dict_values slot)).
    { apply le_sum_nonneg.
      - intros x Hx. unfold dict_values in Hx. apply in_map_iff in Hx.
        destruct Hx as ([k w] & <- & Hin). simpl.
        apply (Hpos k). apply (He y ys t slot k w Hy Hslot Hin).
      - unfold dict_values. apply in_map_iff. exists (c, v).
        split; [reflexivity|]. now apply dict_get_In. }
    lia. }
  split; [exact Hno|]. intros Hwf Hkey.
  destruct (run_part_inv _ _ _ Hwf Hrun) as (g & -> & -> & Hpart).
  apply (pi_cover _ _ Hpart) in Hkey. destruct Hkey as [Hk|Hp]; tauto.
Qed.

Lemma oversized_class_remains_witness :
  ~ placed schedule_AB "C" /\
  (dict_wf (class_terms planner_ABC) ->
   In "C" (dict_keys (class_terms planner_ABC)) ->
   In "C" (unplaced [Banner; QuotaWarning 42; Banner;
                     AddedLine "A" ["A"]; AddedLine "B" ["B"];
                     UnplacedWarning ["C"]])).
Proof.
  apply (oversized_class_remains planner_ABC schedule_AB _ "C" 20).
  - simpl. intros k w.
    destruct (String.eqb k "A"); [intros [= <-]; lia|].
    destruct (String.eqb k "B"); [intros [= <-]; lia|].
    destruct (String.eqb k "C"); [intros [= <-]; lia|discriminate].
  - vm_compute. reflexivity.
  - reflexivity.
  - reflexivity.
Defined.

(** ** Displaying a schedule *)

Lemma display_terms_run (ys : YearSchedule) (out : list Line) :
  for_ ys (fun entry =>
    modify (fun out => out ++ [TermLine (fst entry) (snd entry)])) out
  = (Ok tt, out ++ map (fun e => TermLine (fst e) (snd e)) ys).
Proof.
  revert out. induction ys as [|e ys IH]; intros out; simpl.
  - unfold ret. now rewrite app_nil_r.
  - unfold bind, modify. rewrite IH, <- app_assoc. reflexivity.
Qed.

Lemma display_schedule_run (s : Schedule) (out : list Line) :
  display_schedule s out
  = (Ok tt,
     out ++ flat_map (fun item =>
              YearLine (fst item)
              :: map (fun e => TermLine (fst e) (snd e)) (snd item)
              ++ [BlankLine]) s).
Proof.
  unfold display_schedule.
  revert out. induction s as [|item s IH]; intros out; simpl.
  - unfold ret. now rewrite app_nil_r.
  - unfold bind at 1. unfold bind at 1. unfold modify at 1.
    unfold bind at 1. rewrite display_terms_run. unfold modify at 1.
    rewrite IH. rewrite <- !app_assoc. reflexivity.
Qed.

Lemma keys_FWS (ys : YearSchedule) :
  dict_keys ys = ["F"; "W"; "S"] ->
  exists a b c, ys = [("F", a); ("W", b); ("S", c)].
Proof.
  destruct ys as [|[k1 a] [|[k2 b] [|[k3 c] [|e ys]]]]; try discriminate.
  simpl. intros [= -> -> ->]. eauto.
Qed.

(** X16.  [display_schedule] never raises.  For a schedule that
    [create_schedule] returned it prints twenty lines: for each of the four
    years, in ascending order, the year line, the lines of the slots F, W
    and S with the classes of [schedule[year][term]], and an empty line. *)
Theorem display_returned_schedule (self : Planner) (s : Schedule)
    (out : list Output) (lines : list Line) :
  run_create_schedule self = (Ok s, out) ->
  display_schedule s lines
  = (Ok tt, lines ++ flat_map (year_lines s) (years_of self)).
Proof.
  intros Hrun. rewrite display_schedule_run. f_equal. f_equal.
  destruct (run_sched_inv _ _ _ Hrun) as (g & -> & Hinv).
  pose proof (si_keys _ _ _ Hinv) as Hkeys.
  assert (Hyear : forall y ys, In (y, ys) (schedule g) ->
            dict_get (schedule g) y = Some ys /\
            exists a b c, ys = [("F", a); ("W", b); ("S", c)]).
  { intros y ys Hin.
    assert (Hget : dict_get (schedule g) y = Some ys).
    { apply In_dict_get; [|assumption]. unfold dict_wf. rewrite Hkeys.
      apply years_of_NoDup. }
    split; [assumption|].
    destruct (si_years _ _ _ Hinv _ _ Hget) as (cp & added & _ & Hok).
    apply keys_FWS, (yo_keys _ _ _ _ Hok). }
  rewrite <- Hkeys. unfold dict_keys.
  rewrite (flat_map_concat_map (year_lines (schedule g))), map_map.
  rewrite flat_map_concat_map. f_equal. apply map_ext_in.
  intros [y ys] Hin. destruct (Hyear y ys Hin) as (Hget & a & b & c & ->).
  unfold year_lines, slot_or_empty, slot_of. simpl fst. rewrite Hget.
  reflexivity.
Qed.

Lemma display_returned_schedule_witness :
  display_schedule schedule_AB []
  = (Ok tt, flat_map (year_lines schedule_AB) [22; 23; 24; 25]).
Proof.
  apply (display_returned_schedule planner_AB schedule_AB output_AB []).
  reflexivity.
Defined.

(** ** First fit: what is not placed did not fit *)

Lemma grows_refl ys : grows ys ys.
Proof. intros t slot Hs. exists slot. split; [assumption|lia]. Qed.

Lemma grows_trans ys1 ys2 ys3 : grows ys1 ys2 -> grows ys2 ys3 -> grows ys1 ys3.
Proof.
  intros H12 H23 t s3 Hs3. destruct (H23 _ _ Hs3) as (s2 & Hs2 & Hle23).
  destruct (H12 _ _ Hs2) as (s1 & Hs1 & Hle12). exists s1.
  split; [assumption|lia].
Qed.

Lemma no_room_grows self ys ys' c ts :
  no_room self ys c ts -> grows ys ys' -> no_room self ys' c ts.
Proof.
  intros Hno Hg t slot' cr Ht Hs' Hcr.
  destruct (Hg _ _ Hs') as (slot & Hs & Hle).
  pose proof (Hno t slot cr Ht Hs Hcr). lia.
Qed.

Lemma no_room_nil self ys c : no_room self ys c [].
Proof. intros t slot cr []. Qed.

Lemma no_room_snoc self ys c ts t :
  no_room self ys c ts -> no_room self ys c [t] -> no_room self ys c (ts ++ [t]).
Proof.
  intros H1 H2 u slot cr Hu. apply in_app_or in Hu.
  destruct Hu as [Hu|Hu]; [apply H1 | apply H2]; assumption.
Qed.

Lemma year_of_set (f : Frame) (sched0 : Schedule) (year : Z) ys :
  schedule f = dict_set sched0 year ys -> year_of f year = ys.
Proof. intros Hs. unfold year_of. now rewrite Hs, dict_get_set_eq. Qed.

Section NoNegativeCredits.
Variable self : Planner.
Hypothesis credits_nonneg :
  forall k w, dict_get (class_credits self) k = Some w -> 0 <= w.

Lemma place_full year sched0 copy out c ts term f :
  In (c, ts) copy -> In term ts ->
  placing self year sched0 copy out f ->
  post (place self year c term) f
    (fun _ f' =>
       placing self year sched0 copy out f' /\
       grows (year_of f year) (year_of f' year) /\
       ((classes_added f' = classes_added f /\
         no_room self (year_of f' year) c [term]) \/
        classes_added f' = classes_added f ++ [c]))
    (fun _ _ => True).
Proof.
  intros Hc Ht Hp.
  pose proof (place_post self year sched0 copy out c ts term f Hc Ht Hp) as Hpost.
  destruct Hp as (Hcopy & Hout & ys & Hs & Hok).
  unfold post in *. rewrite place_run in *.
  rewrite (year_of_set f sched0 year ys Hs).
  rewrite Hs, dict_get_set_eq in *.
  destruct (dict_get ys term) as [slot|] eqn:Hslot; [|exact I].
  destruct (dict_get (class_credits self) c) as [cr|] eqn:Hcr; [|exact I].
  destruct (Z.leb_spec (sum (dict_values slot) + cr) MAX_CREDS) as [Hroom|Hfull].
  - split; [exact Hpost|].
    unfold year_of. cbn [schedule]. rewrite dict_get_set_eq. split; [|now right].
    intros t slot'. destruct (string_dec term t) as [<-|Hne].
    + rewrite dict_get_set_eq. intros [= <-]. exists slot.
      split; [assumption|]. rewrite sum_values_set.
      destruct (dict_get slot c) as [w|] eqn:Hold.
      * destruct (yo_val _ _ _ _ Hok _ _ _ _ Hslot Hold) as [Hw _].
        assert (w = cr) by congruence. lia.
      * pose proof (credits_nonneg _ _ Hcr). lia.
    + rewrite dict_get_set_neq by assumption. intros Hs'. exists slot'.
      split; [assumption|lia].
  - split; [exact Hpost|].
    rewrite (year_of_set f sched0 year ys Hs).
    split; [apply grows_refl|]. left. split; [reflexivity|].
    intros t slot' cr' [<-|[]] Hs' Hcr'.
    assert (slot' = slot) by congruence. assert (cr' = cr) by congruence.
    subst. lia.
Qed.

Lemma item_full year sched0 copy out c ts f :
  In (c, ts) copy ->
  placing self year sched0 copy out f ->
  post (for_ ts (fun t => place self year c t)) f
    (fun _ f' =>
       placing self year sched0 copy out f' /\
       grows (year_of f year) (year_of f' year) /\
       (forall k, In k (classes_added f) -> In k (classes_added f')) /\
       (~ In c (classes_added f') -> no_room self (year_of f' year) c ts))
    (fun _ _ => True).
Proof.
  intros Hc Hp.
  apply (post_for ts _
    (fun done g =>
       placing self year sched0 copy out g /\
       grows (year_of f year) (year_of g year) /\
       (forall k, In k (classes_added f) -> In k (classes_added g)) /\
       (~ In c (classes_added g) -> no_room self (year_of g year) c done))).
  - intros done u todo g Hts (HP & Hg & Hmono & Hno).
    eapply post_weaken;
      [apply (place_full year sched0 copy out c ts u g Hc) | |auto].
    + rewrite Hts. apply in_or_app. right. now left.
    + exact HP.
    + intros a g' (HP' & Hg' & Hcase). simpl.
      split; [exact HP'|]. split; [eapply grows_trans; eauto|].
      destruct Hcase as [[Ha Hu]|Ha]; rewrite Ha.
      * split; [exact Hmono|]. intros Hni. apply no_room_snoc; [|exact Hu].
        eapply no_room_grows; [apply Hno; exact Hni | exact Hg'].
      * split; [intros k Hk; apply in_or_app; left; auto|].
        intros Hni. exfalso. apply Hni. apply in_or_app. right. now left.
  - split; [exact Hp|]. split; [apply grows_refl|]. split; [auto|].
    intros _. apply no_room_nil.
Qed.

Lemma year_pass_full year f :
  post (year_pass self year) f
    (fun _ f' => forall c ts,
       In (c, ts) (class_terms_copy f) -> ~ In c (classes_added f') ->
       no_room self (year_of f' year) c ts)
    (fun _ _ => True).
Proof.
  unfold year_pass.
  apply post_bind. unfold post at 1, modify.
  apply post_bind. unfold post at 1, modify.
  apply post_bind. unfold post at 1, gets. simpl.
  set (copy := class_terms_copy f).
  set (P := placing self year (schedule f) copy (stdout f)).
  set (N := fun (done : list (string * list string)) (g : Frame) =>
              forall c ts, In (c, ts) done -> ~ In c (classes_added g) ->
                no_room self (year_of g year) c ts).
  apply post_bind.
  eapply post_weaken with
    (Q := fun _ g => P g /\ N copy g) (E := fun _ _ => True); [| |auto].
  - apply (post_for copy _ (fun done g => P g /\ N done g)).
    + intros done [c ts] todo g Hitems [HP HN]. simpl.
      assert (Hin : In (c, ts) copy).
      { rewrite Hitems. apply in_or_app. right. now left. }
      eapply post_weaken;
        [apply (item_full year (schedule f) copy (stdout f) c ts g Hin HP)
        | |auto].
      intros a g' (HP' & Hg & Hmono & Hno). split; [exact HP'|].
      intros c0 ts0 Hin0 Hni. apply in_app_or in Hin0.
      destruct Hin0 as [Hin0|[[= <- <-]|[]]].
      * eapply no_room_grows; [|exact Hg]. apply (HN c0 ts0 Hin0).
        intros Hk. apply Hni, Hmono, Hk.
      * apply Hno, Hni.
    + split; [|intros c ts []].
      split; [reflexivity|]. split; [reflexivity|].
      exists empty_year. split; [reflexivity|]. apply year_ok_empty.
  - intros a g [HP HN]. apply post_bind. unfold post at 1, gets.
    eapply post_weaken; [apply forget_loop| |auto].
    intros b g' (Hs & Ha & _ & _) c ts Hin Hni. simpl in Hs, Ha.
    unfold year_of. rewrite Hs. rewrite Ha in Hni.
    apply (HN c ts Hin Hni).
Qed.

Lemma years_before (done todo : list Z) (year : Z) :
  years_of self = done ++ year :: todo -> forall y, In y done -> y < year.
Proof.
  unfold years_of.
  destruct done as [|a [|b [|c [|d done]]]]; simpl; intros H y Hin;
    injection H as <-; intros; subst; simpl in Hin.
  - contradiction.
  - intuition lia.
  - intuition lia.
  - intuition lia.
  - exfalso. eapply app_cons_not_nil; eauto.
Qed.

Hypothesis terms_wf : dict_wf (class_terms self).

Lemma greedy_step year done f :
  (forall y, In y done -> y < year) ->
  greedy_inv self done f ->
  post (year_pass self year) f
    (fun _ f' => greedy_inv self (done ++ [year]) f') (fun _ _ => True).
Proof.
  intros Hbefore [Hwf Hincl Hkeys Hrem Hearly].
  eapply post_weaken;
    [apply (post_conj _ _ _ _ _ _ (year_pass_post self year f)
              (year_pass_full year f)) | |auto].
  intros a f' [(ys & added & Hs & Hok & Ha & Hpop & _) Hfull].
  assert (Hfresh : dict_get (schedule f) year = None).
  { apply dict_get_None. rewrite Hkeys. intros Hin.
    pose proof (Hbefore _ Hin). lia. }
  destruct (pop_all_wf _ _ _ Hpop Hwf) as (Hwf' & _ & Hpopped).
  assert (Hsub : incl (class_terms_copy f') (class_terms_copy f))
    by (eapply pop_all_incl; eauto).
  assert (Hyear : year_of f' year = ys)
    by (unfold year_of; now rewrite Hs, dict_get_set_eq).
  assert (Hterms : forall c ts ts0, In (c, ts0) (class_terms_copy f) ->
            In (c, ts) (class_terms self) -> ts0 = ts).
  { intros c ts ts0 H0 H1. apply Hincl in H0.
    apply (In_dict_get _ _ _ terms_wf) in H0, H1. congruence. }
  constructor.
  - exact Hwf'.
  - eapply incl_tran; eauto.
  - rewrite Hs, (dict_keys_set_absent _ _ _ Hfresh), Hkeys. reflexivity.
  - intros c ts Hin y ys'. rewrite Hs.
    destruct (Z.eq_dec year y) as [<-|Hne].
    + rewrite dict_get_set_eq. intros [= <-]. rewrite <- Hyear.
      apply Hfull; [apply Hsub, Hin|]. rewrite Ha. intros Hadded.
      destruct (Hpopped _ Hadded) as [Hnone _].
      apply dict_get_None in Hnone. apply Hnone.
      unfold dict_keys. apply in_map_iff. now exists (c, ts).
    + rewrite dict_get_set_neq by assumption. apply Hrem, Hsub, Hin.
  - intros c y t Hplaced ts Hts y' ys' Hlt. rewrite Hs in Hplaced |- *.
    apply placed_at_set in Hplaced.
    destruct Hplaced as [[-> (slot & v & Hslot & Hv)]|[Hne Hplaced]].
    + rewrite dict_get_set_neq by lia. intros Hy'.
      destruct (yo_val _ _ _ _ Hok _ _ _ _ Hslot Hv) as (_ & _ & ts0 & Hin0 & _).
      rewrite <- (Hterms c ts ts0 Hin0 Hts). eapply Hrem; eauto.
    + assert (Hold : y < year).
      { apply Hbefore. rewrite <- Hkeys.
        destruct Hplaced as (slot & v & Hslot & _). unfold slot_of in Hslot.
        destruct (dict_get (schedule f) y) as [ys0|] eqn:Hy; [|discriminate].
        eapply dict_get_key; eauto. }
      rewrite dict_get_set_neq by lia. intros Hy'.
      eapply Hearly; eauto.
Qed.

Lemma greedy_years f :
  greedy_inv self [] f ->
  post (for_ (years_of self) (year_pass self)) f
    (fun _ f' => greedy_inv self (years_of self) f') (fun _ _ => True).
Proof.
  intros Hstart.
  apply (post_for (years_of self) (year_pass self)
           (fun done g => greedy_inv self done g) (fun _ _ => True));
    [|exact Hstart].
  intros done year todo g Hyears Hg.
  apply greedy_step; [|exact Hg]. eapply years_before; eauto.
Qed.

Lemma greedy_create_schedule f :
  post (create_schedule self) f
    (fun s f' => remaining_full self s (class_terms_copy f') /\
                 earlier_full self s)
    (fun _ _ => True).
Proof.
  unfold create_schedule.
  destruct (quota_check_run self f) as (f1 & Hq & _ & _).
  apply post_bind. unfold post at 1. rewrite Hq.
  apply post_bind. unfold post at 1, modify.
  apply post_bind. unfold post at 1, modify.
  apply post_bind. unfold post at 1, modify.
  apply post_bind.
  eapply post_weaken; [apply greedy_years| |auto].
  - constructor; simpl.
    + exact terms_wf.
    + apply incl_refl.
    + reflexivity.
    + intros c ts _ y ys. discriminate.
    + intros c y t (slot & v & Hslot & _). discriminate.
  - intros a g [_ _ _ Hrem Hearly].
    apply post_bind. unfold post at 1, gets.
    apply post_bind.
    destruct (0 <? Z.of_nat (List.length (class_terms_copy g)));
      unfold post, print, modify, ret, gets; simpl; auto.
Qed.

(** What a returning call leaves: the working copy whose keys are reported
    as remaining. *)
Lemma run_greedy (s : Schedule) (out : list Output) :
  run_create_schedule self = (Ok s, out) ->
  exists copy,
    unplaced out = dict_keys copy /\ incl copy (class_terms self) /\
    remaining_full self s copy /\ earlier_full self s.
Proof.
  unfold run_create_schedule.
  pose proof (post_conj _ _ _ _ _ _ (create_schedule_post self fresh)
                (greedy_create_schedule fresh)) as H.
  unfold post in H.
  destruct (create_schedule self fresh) as [[s'|e] f']; [|discriminate].
  intros [= -> <-].
  destruct H as [(g & Hsteps & Hs & Hc & Ho) [Hrem Hearly]].
  exists (class_terms_copy f'). split; [|split; [|split; assumption]].
  - rewrite Ho, Hc. rewrite unplaced_skip.
    + unfold remaining_warning. destruct (class_terms_copy g); reflexivity.
    + apply (year_steps_stdout _ _ _ _ Hsteps).
      unfold start_frame. simpl.
      destruct (get_total_credits self <? QUOTA); reflexivity.
  - rewrite Hc.
    apply (si_incl _ _ _ (sched_inv_steps _ _ _ _ Hsteps []
             (years_of_NoDup self) (sched_inv_start self fresh))).
Qed.
End NoNegativeCredits.

(** X17.  When no class has negative credits, a class reported as remaining
    fits nowhere: in every year of the returned schedule, every slot of one
    of its terms holds credits that, with the credits of the class, exceed
    18. *)
Theorem remaining_class_fits_nowhere (self : Planner) (s : Schedule)
    (out : list Output) :
  (forall k w, dict_get (class_credits self) k = Some w -> 0 <= w) ->
  dict_wf (class_terms self) ->
  run_create_schedule self = (Ok s, out) ->
  forall c ts cr year term slot,
    In c (unplaced out) ->
    get_class_terms self c = Ok ts -> In term ts ->
    get_class_credits self c = Ok cr ->
    slot_of s year term = Some slot ->
    MAX_CREDS < sum (dict_values slot) + cr.
Proof.
  intros Hpos Hwf Hrun c ts cr year term slot Hc Hts Hterm Hcr Hslot.
  destruct (run_greedy self Hpos Hwf s out Hrun)
    as (copy & Hu & Hincl & Hrem & _).
  rewrite Hu in Hc. unfold dict_keys in Hc. apply in_map_iff in Hc.
  destruct Hc as ([c' ts'] & Hfst & Hin). simpl in Hfst. subst c'.
  assert (ts' = ts).
  { apply Hincl, (In_dict_get _ _ _ Hwf) in Hin.
    unfold get_class_terms in Hts. rewrite Hin in Hts. congruence. }
  subst ts'. unfold slot_of in Hslot.
  destruct (dict_get s year) as [ys|] eqn:Hy; [|discriminate].
  unfold get_class_credits in Hcr.
  destruct (dict_get (class_credits self) c) as [cr'|] eqn:Hcr';
    [|discriminate].
  injection Hcr as ->.
  apply (Hrem c ts Hin year ys Hy term slot cr Hterm Hslot Hcr').
Qed.

Lemma planner_ABC_nonneg :
  forall k w, dict_get (class_credits planner_ABC) k = Some w -> 0 <= w.
Proof.
  simpl. intros k w.
  destruct (String.eqb k "A"); [intros [= <-]; lia|].
  destruct (String.eqb k "B"); [intros [= <-]; lia|].
  destruct (String.eqb k "C"); [intros [= <-]; lia|discriminate].
Defined.

Lemma remaining_class_fits_nowhere_witness :
  MAX_CREDS < sum (dict_values (@nil (string * Z))) + 20.
Proof.
  apply (remaining_class_fits_nowhere planner_ABC schedule_AB output_ABC
           planner_ABC_nonneg)
    with (c := "C") (ts := ["W"; "S"]) (year := 22) (term := "W").
  - unfold dict_wf. simpl. distinct_names.
  - vm_compute. reflexivity.
  - simpl. now left.
  - reflexivity.
  - simpl. now left.
  - reflexivity.
  - reflexivity.
Defined.

(** X18.  When no class has negative credits, a class is placed in the
    first year that has room: if it is in a slot of year [year], then in
    every earlier year of the returned schedule every slot of one of its
    terms holds credits that, with the credits of the class, exceed 18. *)
Theorem placed_in_first_year_with_room (self : Planner) (s : Schedule)
    (out : list Output) :
  (forall k w, dict_get (class_credits self) k = Some w -> 0 <= w) ->
  dict_wf (class_terms self) ->
  run_create_schedule self = (Ok s, out) ->
  forall c ts cr year term year' term' slot,
    placed_at s year term c ->
    get_class_terms self c = Ok ts -> In term' ts ->
    get_class_credits self c = Ok cr ->
    year' < year ->
    slot_of s year' term' = Some slot ->
    MAX_CREDS < sum (dict_values slot) + cr.
Proof.
  intros Hpos Hwf Hrun c ts cr year term year' term' slot
    Hplaced Hts Hterm Hcr Hlt Hslot.
  destruct (run_greedy self Hpos Hwf s out Hrun) as (copy & _ & _ & _ & Hearly).
  unfold get_class_terms in Hts.
  destruct (dict_get (class_terms self) c) as [ts0|] eqn:Hts0; [|discriminate].
  injection Hts as ->. apply dict_get_In in Hts0.
  unfold slot_of in Hslot.
  destruct (dict_get s year') as [ys'|] eqn:Hy; [|discriminate].
  unfold get_class_credits in Hcr.
  destruct (dict_get (class_credits self) c) as [cr'|] eqn:Hcr';
    [|discriminate].
  injection Hcr as ->.
  apply (Hearly c year term Hplaced ts Hts0 year' ys' Hlt Hy
           term' slot cr Hterm Hslot Hcr').
Qed.

Lemma placed_in_first_year_with_room_witness :
  MAX_CREDS < sum (dict_values [("A", 18)]) + 4.
Proof.
  apply (placed_in_first_year_with_room planner_ABC schedule_AB output_ABC
           planner_ABC_nonneg)
    with (c := "B") (ts := ["F"]) (year := 23) (term := "F")
         (year' := 22) (term' := "F").
  - unfold dict_wf. simpl. distinct_names.
  - vm_compute. reflexivity.
  - exists [("B", 4)], 4. split; reflexivity.
  - reflexivity.
  - simpl. now left.
  - reflexivity.
  - lia.
  - reflexivity.
Defined.

(** ** The first class of the catalogue offered in two terms *)




Section FirstClassTwoTerms.
Variables (self : Planner) (year : Z) (c : string) (ts : list string) (cr : Z).
Hypothesis credits_known : dict_get (class_credits self) c = Some cr.
Hypothesis credits_fit : cr <= MAX_CREDS.



Variables (rest : Dict string (list string)) (term1 term2 : string).
Hypothesis two_terms : In term1 ts /\ In term2 ts /\ term1 <> term2.
Hypothesis terms_valid : In term1 VALID_TERMS /\ In term2 VALID_TERMS.

End FirstClassTwoTerms.




(** ** A class without terms *)

(** X20.  A class stored with an empty list of terms (which [add_class]
    accepts) is in no slot of a schedule that is returned and is reported
    as remaining. *)
Theorem class_without_terms_remains (self : Planner) (s : Schedule)
    (out : list Output) (c : string) :
  dict_wf (class_terms self) ->
  run_create_schedule self = (Ok s, out) ->
  get_class_terms self c = Ok [] ->
  ~ placed s c /\ In c (unplaced out).
Proof.
  intros Hwf Hrun Hts. unfold get_class_terms in Hts.
  destruct (dict_get (class_terms self) c) as [ts0|] eqn:Hget; [|discriminate].
  injection Hts as ->.
  assert (Hno : ~ placed s c).
  { intros (y & t & slot & v & Hslot & Hv).
    destruct (run_sched_inv _ _ _ Hrun) as (g & -> & Hinv).
    unfold slot_of in Hslot.
    destruct (dict_get (schedule g) y) as [ys|] eqn:Hy; [|discriminate].
    destruct (si_years _ _ _ Hinv _ _ Hy) as (cp & added & Hcp & Hok).
    destruct (yo_val _ _ _ _ Hok _ _ _ _ Hslot Hv) as (_ & _ & ts & Hin & Ht).
    apply Hcp, (In_dict_get _ _ _ Hwf) in Hin.
    rewrite Hget in Hin. injection Hin as <-. contradiction. }
  split; [exact Hno|].
  destruct (run_part_inv _ _ _ Hwf Hrun) as (g & -> & -> & Hpart).
  assert (Hkey : In c (dict_keys (class_terms self)))
    by (eapply dict_get_key; eauto).
  apply (pi_cover _ _ Hpart) in Hkey. tauto.
Qed.

Lemma class_without_terms_remains_witness :
  add_class "D" [] 3 planner_AB = (Ok tt, planner_ABD) /\
  ~ placed schedule_AB "D" /\
  In "D" (unplaced [Banner; QuotaWarning 25; Banner;
                    AddedLine "A" ["A"]; AddedLine "B" ["B"];
                    UnplacedWarning ["D"]]).
Proof.
  split; [vm_compute; reflexivity|].
  apply (class_without_terms_remains planner_ABD schedule_AB).
  - unfold dict_wf. simpl. distinct_names.
  - vm_compute. reflexivity.
  - reflexivity.
Defined.
